(** * safeatomic: lock-file protocol and atomic write/read sessions

    A shallow embedding of [src/safeatomic/atomic.py].  The Python code is
    stateful (it works on the file system, the clock and the process table) and
    fallible (it raises), so operations are functions from a [world] to a
    result-or-exception and a new world.

    Modelling conventions.
    - Text ([str]) is a [string] whose characters are the code points below
      256; bytes are [list byte].  The character tables of [str.strip],
      [str.isdigit] and [int] are the exact ones for that range.
    - Time is an integer number of milliseconds ([DEFAULT_DELAY = 0.1] s is
      [100]); a delay is a non-negative duration.
    - The file system holds regular files only, keyed by path string.  A file
      carries its bytes, its creation time and the metadata that
      [shutil.copystat] copies.  Every path lies in a directory that exists
      and that the process may write to, and other processes act only
      through the race schedule of the exclusive create: creating and
      removing a file fail only when the file is, respectively is not, there.
    - The clock counts waiting: it advances in [time.sleep] only.  The time
      the program spends running is not counted, so a time read later in the
      program is taken at the same instant unless a sleep lies in between.
    - An [encoding] is read as one without state (UTF-8, Latin-1, ASCII):
      each write to a text file is encoded on its own.  See
      [Codec.stateless].
    - Files opened without an [encoding] use the locale's preferred encoding,
      taken to be UTF-8.  Text-mode writes do not translate newlines (POSIX);
      text-mode reads use universal newlines, as [open] does by default.
    - [hashlib.sha256], [datetime.isoformat] and the serializers (json, yaml,
      pickle) are parameters of the development. *)

From Stdlib Require Import ZArith NArith Ascii String List Bool Lia.
From Stdlib.Strings Require Import Byte.
From stdpp Require Import base option gmap strings list fin_maps.

Local Open Scope Z_scope.

(* ===================================================================== *)
(** * Python text: the [str] methods the lock codec uses                 *)
(* ===================================================================== *)

Module PyStr.

Definition code (c : ascii) : N := N_of_ascii c.

(** [str.isspace] on one character, as [str.strip()] uses it. *)
Definition isspace (c : ascii) : bool :=
  let n := code c in
  ((9 <=? n) && (n <=? 13) || (28 <=? n) && (n <=? 32)
   || (n =? 133) || (n =? 160))%N.

(** ASCII decimal digit. *)
Definition isdecimal (c : ascii) : bool :=
  let n := code c in ((48 <=? n) && (n <=? 57))%N.

(** [str.isdigit] on one character: the decimal digits and the superscript
    digits U+00B2, U+00B3, U+00B9. *)
Definition isdigit_char (c : ascii) : bool :=
  let n := code c in
  (isdecimal c || (n =? 178) || (n =? 179) || (n =? 185))%N.

Fixpoint all (p : ascii -> bool) (s : string) : bool :=
  match s with
  | EmptyString => true
  | String c r => p c && all p r
  end.

Definition is_empty (s : string) : bool :=
  match s with EmptyString => true | _ => false end.

(** [s.isdigit()]: non-empty and every character a digit. *)
Definition isdigit (s : string) : bool := negb (is_empty s) && all isdigit_char s.

Fixpoint lstrip (s : string) : string :=
  match s with
  | EmptyString => EmptyString
  | String c r => if isspace c then lstrip r else s
  end.

Fixpoint rstrip (s : string) : string :=
  match s with
  | EmptyString => EmptyString
  | String c r =>
      let r' := rstrip r in
      if isspace c && is_empty r' then EmptyString else String c r'
  end.

(** [s.strip()] *)
Definition strip (s : string) : string := rstrip (lstrip s).

(** [s.split(sep)] for a one-character separator. *)
Fixpoint split (sep : ascii) (s : string) : list string :=
  match s with
  | EmptyString => [EmptyString]
  | String c r =>
      if Ascii.eqb c sep then EmptyString :: split sep r
      else match split sep r with
           | h :: t => String c h :: t
           | [] => [String c EmptyString]
           end
  end.

(** [s[:n]] *)
Fixpoint take (n : nat) (s : string) : string :=
  match n, s with
  | S n', String c r => String c (take n' r)
  | _, _ => EmptyString
  end.

Definition contains (x : ascii) (s : string) : bool :=
  negb (all (fun c => negb (Ascii.eqb c x)) s).

(** Universal-newlines translation of a text-mode read: ["\r\n"] and a lone
    ["\r"] both become ["\n"]. *)
Fixpoint universal_newlines (s : string) : string :=
  match s with
  | EmptyString => EmptyString
  | String c r =>
      if Ascii.eqb c "013" then
        match r with
        | String c' r' =>
            if Ascii.eqb c' "010" then String "010" (universal_newlines r')
            else String "010" (universal_newlines r)
        | EmptyString => String "010" EmptyString
        end
      else String c (universal_newlines r)
  end.

(** Value of a string of ASCII decimal digits, most significant first. *)
Fixpoint digits_value (acc : N) (s : string) : N :=
  match s with
  | EmptyString => acc
  | String c r => digits_value (10 * acc + (code c - 48))%N r
  end.

(** The digit groups of an [int] literal: decimal digits, with single
    underscores allowed between digits.  Returns the digits with the
    underscores removed, or [None] when the literal is malformed. *)
Fixpoint int_digits (prev_digit : bool) (s : string) : option string :=
  match s with
  | EmptyString => if prev_digit then Some EmptyString else None
  | String c r =>
      if isdecimal c then String c <$> int_digits true r
      else if Ascii.eqb c "_" && prev_digit then
        match r with
        | String c' _ => if isdecimal c' then int_digits false r else None
        | EmptyString => None
        end
      else None
  end.

(** [sys.get_int_max_str_digits()] *)
Definition INT_MAX_STR_DIGITS : nat := 4300.

(** [int(s)] in base 10: surrounding whitespace is ignored, one sign is
    allowed, and a literal of more than 4300 digits is rejected.  [None]
    stands for [ValueError]. *)
Definition int (s : string) : option Z :=
  let s := strip s in
  let '(neg, body) :=
    match s with
    | String "-" r => (true, r)
    | String "+" r => (false, r)
    | _ => (false, s)
    end in
  ds ← int_digits false body;
  if (INT_MAX_STR_DIGITS <? String.length ds)%nat then None
  else let v := Z.of_N (digits_value 0 ds) in
       Some (if neg then - v else v).

Definition digit_char (d : N) : ascii := ascii_of_N (48 + d).

(** Decimal digits of a positive number, by repeated division; [fuel]
    bounds the number of digits. *)
Fixpoint decimal_digits (fuel : nat) (n : N) (acc : string) : string :=
  match fuel with
  | O => acc
  | S fuel' =>
      let acc' := String (digit_char (n mod 10)) acc in
      if (n <? 10)%N then acc' else decimal_digits fuel' (n / 10)%N acc'
  end.

Definition str_of_N (n : N) : string :=
  decimal_digits (S (N.to_nat (N.log2 n))) n EmptyString.

(** [str(n)] for an integer, as an f-string renders it. *)
Definition str_of_int (z : Z) : string :=
  if z <? 0 then String "-" (str_of_N (Z.to_N (- z))) else str_of_N (Z.to_N z).

End PyStr.

(* ===================================================================== *)
(** * Text encodings                                                     *)
(* ===================================================================== *)

Module Codec.

(** An encoding, as named by the [encoding] argument of [open]: the encoder
    and the strict decoder.  [None] stands for [UnicodeEncodeError],
    respectively [UnicodeDecodeError]. *)
Record codec := {
  enc : string -> option (list byte);
  dec : list byte -> option string
}.

Definition byte_of_code (n : N) : byte := byte_of_ascii (ascii_of_N n).

(** UTF-8 of one code point below 256: one byte below 128, two bytes above. *)
Definition utf8_enc_char (c : ascii) : list byte :=
  let n := N_of_ascii c in
  if (n <? 128)%N then [byte_of_ascii c]
  else [byte_of_code (192 + n / 64); byte_of_code (128 + n mod 64)].

Fixpoint utf8_enc (s : string) : list byte :=
  match s with
  | EmptyString => []
  | String c r => utf8_enc_char c ++ utf8_enc r
  end.

(** Strict UTF-8 decoding.  Sequences that are invalid, or that decode to a
    code point of 256 or more, are outside the modelled repertoire: [None]. *)
Fixpoint utf8_dec (bs : list byte) : option string :=
  match bs with
  | [] => Some EmptyString
  | b :: r =>
      let n := Byte.to_N b in
      if (n <? 128)%N then String (ascii_of_byte b) <$> utf8_dec r
      else if ((n =? 194) || (n =? 195))%N then
        match r with
        | b2 :: r' =>
            let m := Byte.to_N b2 in
            if ((128 <=? m) && (m <? 192))%N
            then String (ascii_of_N ((n - 192) * 64 + (m - 128))) <$> utf8_dec r'
            else None
        | [] => None
        end
      else None
  end.

Definition utf8 : codec := {| enc s := Some (utf8_enc s); dec := utf8_dec |}.

(** ISO-8859-1: code point [n] is byte [n]. *)
Definition latin1 : codec :=
  {| enc s := Some (list_byte_of_string s);
     dec bs := Some (string_of_list_byte bs) |}.

Definition is_ascii_char (c : ascii) : bool := (N_of_ascii c <? 128)%N.

(** US-ASCII: only code points below 128. *)
Definition ascii : codec :=
  {| enc s := if PyStr.all is_ascii_char s
              then Some (list_byte_of_string s) else None;
     dec bs := let s := string_of_list_byte bs in
               if PyStr.all is_ascii_char s then Some s else None |}.

(** The locale's preferred encoding, used by [open] without [encoding]. *)
Definition locale : codec := utf8.

(** Decoding what was encoded gives the text back. *)
Definition lossless (k : codec) : Prop :=
  forall s bs, enc k s = Some bs -> dec k bs = Some s.

(** An encoding without state: encoding a text piece by piece is encoding
    the whole.  A text file keeps one incremental encoder, whose output for
    the pieces written is the encoding of the whole text; for an encoding
    without state that is the encoding of each piece on its own.  Encodings
    with a byte-order mark (UTF-16, UTF-32, UTF-8-SIG) are not of this
    kind. *)
Definition stateless (k : codec) : Prop :=
  forall a b,
    enc k (a +:+ b) = (x ← enc k a; y ← enc k b; Some (x ++ y)).

End Codec.

(* ===================================================================== *)
(** * Path utilities                                                     *)
(* ===================================================================== *)

Module Paths.

Definition LOCK_SUFFIX : string := ".lock".
Definition TMP_PREFIX : string := ".__tmp-".
Definition TMP_SUFFIX : string := ".tmp".

(** [get_lock_path] *)
Definition get_lock_path (path : string) : string := path +:+ LOCK_SUFFIX.

(** [(p[:i], p[i:])] for [i = p.rfind('/') + 1], the split that
    [posixpath.dirname] and [posixpath.basename] start from. *)
Fixpoint rsplit (p : string) : string * string :=
  match p with
  | EmptyString => (EmptyString, EmptyString)
  | String c r =>
      let '(h, t) := rsplit r in
      if negb (PyStr.is_empty h) then (String c h, t)
      else if Ascii.eqb c "/" then (String c EmptyString, t)
      else (EmptyString, String c t)
  end.

(** [head.rstrip('/')] *)
Fixpoint rstrip_slash (s : string) : string :=
  match s with
  | EmptyString => EmptyString
  | String c r =>
      let r' := rstrip_slash r in
      if Ascii.eqb c "/" && PyStr.is_empty r' then EmptyString else String c r'
  end.

(** [os.path.basename] *)
Definition basename (p : string) : string := snd (rsplit p).

(** [os.path.dirname]: the head, without trailing slashes unless it consists
    of slashes only. *)
Definition dirname (p : string) : string :=
  let head := fst (rsplit p) in
  if negb (PyStr.is_empty head) && negb (PyStr.all (Ascii.eqb "/") head)
  then rstrip_slash head else head.

Fixpoint ends_with_slash (s : string) : bool :=
  match s with
  | EmptyString => false
  | String c EmptyString => Ascii.eqb c "/"
  | String _ r => ends_with_slash r
  end.

(** [os.path.join(a, b)] *)
Definition join (a b : string) : string :=
  match b with
  | String "/" _ => b
  | _ => if PyStr.is_empty a || ends_with_slash a then a +:+ b
         else a +:+ "/" +:+ b
  end.

Definition hex_digit (d : N) : ascii :=
  match d with
  | 0 => "0" | 1 => "1" | 2 => "2" | 3 => "3" | 4 => "4" | 5 => "5"
  | 6 => "6" | 7 => "7" | 8 => "8" | 9 => "9" | 10 => "a" | 11 => "b"
  | 12 => "c" | 13 => "d" | 14 => "e" | _ => "f"
  end%N%char.

Fixpoint hex_digits (k : nat) (n : N) (acc : string) : string :=
  match k with
  | O => acc
  | S k' => hex_digits k' (n / 16)%N (String (hex_digit (n mod 16)) acc)
  end.

(** [uuid.uuid4().hex[:8]]: the leading 32 bits of the UUID, as eight
    lower-case hexadecimal digits. *)
Definition hex8 (rand : N) : string := hex_digits 8 rand EmptyString.

(** [get_tmp_path], given the random draw. *)
Definition get_tmp_path (rand : N) (path : string) : string :=
  let base := basename path in
  let dir_ := dirname path in
  join dir_ (TMP_PREFIX +:+ hex8 rand +:+ "." +:+ base +:+ TMP_SUFFIX).

End Paths.

(* ===================================================================== *)
(** * The world: file system, clock, processes, and the effect monad     *)
(* ===================================================================== *)

(** A regular file: its bytes, its creation time ([os.path.getctime]) and the
    metadata [shutil.copystat] transfers (permission bits and time stamps). *)
Record file := File {
  data : list byte;
  ctime : Z;
  stat : Z
}.

(** What an operation did to the world, oldest first. *)
Inductive event :=
| Created (p : string)             (* exclusive create of [p] *)
| Opened (p : string)              (* [p] created or truncated for writing *)
| Removed (p : string)             (* [os.remove] *)
| Replaced (src dst : string)      (* [os.replace] *)
| StatCopied (src dst : string)    (* [shutil.copystat] *)
| Slept (d : N)                    (* [time.sleep] *)
| Printed (msg : string)           (* [print] *)
| Raced (p : string).              (* another process created [p] first *)

Record world := World {
  fs : gmap string file;           (* the shared file system *)
  now : Z;                         (* [time.time()] *)
  live : list Z;                   (* process ids that [psutil.pid_exists] *)
  self_pid : Z;                    (* [os.getpid()] *)
  entropy : list N;                (* the successive [uuid4] draws *)
  racers : list (option (list byte));
    (* for each exclusive create to come: whether another process creates the
       file between the existence test and the create, and with which bytes *)
  stat_denied : list string;       (* files whose metadata may not be set *)
  trace : list event
}.

Definition set_fs (f : gmap string file -> gmap string file) (w : world) : world :=
  World (f (fs w)) (now w) (live w) (self_pid w) (entropy w) (racers w)
        (stat_denied w) (trace w).

Definition emit (e : event) (w : world) : world :=
  World (fs w) (now w) (live w) (self_pid w) (entropy w) (racers w)
        (stat_denied w) (trace w ++ [e]).

Inductive exn :=
| FileExistsError (p : string)
| FileNotFoundError (p : string)
| PermissionError (p : string)
| RuntimeError (msg : string)
| UnicodeEncodeError
| UnicodeDecodeError
| ValueError
| IndexError
| SerializerError                  (* raised by a json, yaml or pickle call *)
| BlockError (tag : string).       (* raised by the caller's own code *)

Inductive res (A : Type) :=
| Ok (a : A)
| Raise (e : exn).
Arguments Ok {A} a.
Arguments Raise {A} e.

(** State and exceptions. *)
Definition M (A : Type) : Type := world -> res A * world.

Definition ret {A} (a : A) : M A := fun w => (Ok a, w).
Definition raise {A} (e : exn) : M A := fun w => (Raise e, w).
Definition bind {A B} (m : M A) (k : A -> M B) : M B :=
  fun w => match m w with
           | (Ok a, w') => k a w'
           | (Raise e, w') => (Raise e, w')
           end.
(** [try: m] with the outcome reified, for [except] and [finally]. *)
Definition attempt {A} (m : M A) : M (res A) :=
  fun w => let '(r, w') := m w in (Ok r, w').
Definition lift {A} (r : res A) : M A := fun w => (r, w).
Definition gets {A} (f : world -> A) : M A := fun w => (Ok (f w), w).
Definition modify (f : world -> world) : M unit := fun w => (Ok tt, f w).

Declare Scope py_scope.
Delimit Scope py_scope with py.
Notation "x <- m ;; k" := (bind m (fun x => k))
  (at level 20, m at level 99, k at level 200, only parsing) : py_scope.
Notation "m ;; k" := (bind m (fun _ => k))
  (at level 100, right associativity, only parsing) : py_scope.
Local Open Scope py_scope.

(** [try: body finally: cleanup] *)
Definition try_finally {A} (body : M A) (cleanup : M unit) : M A :=
  r <- attempt body ;; cleanup ;; lift r.

(** [with mgr as f: body(f)] for a manager whose [__exit__] returns [None]:
    an exception of [__enter__] skips [__exit__]; an exception of the body
    is re-raised after [__exit__]; an exception of [__exit__] replaces it. *)
Definition with_ {H A} (enter : M H) (exit : M unit) (body : H -> M A) : M A :=
  f <- enter ;; r <- attempt (body f) ;; exit ;; lift r.

(** [for _ in range(n): body], where the body may [return] a value. *)
Inductive flow (A : Type) :=
| Return (a : A)
| Next.
Arguments Return {A} a.
Arguments Next {A}.

Fixpoint for_range {A} (n : nat) (body : M (flow A)) (after : M A) : M A :=
  match n with
  | O => after
  | S n' => r <- body ;;
            match r with
            | Return a => ret a
            | Next => for_range n' body after
            end
  end.

(** ** Operating-system primitives *)

Module OS.

(** [os.path.exists] *)
Definition exists_ (p : string) (w : world) : bool := bool_decide (is_Some (fs w !! p)).

(** [time.sleep]: the one operation that advances the clock. *)
Definition sleep (d : N) : M unit :=
  modify (fun w => emit (Slept d)
    (World (fs w) (now w + Z.of_N d) (live w) (self_pid w) (entropy w)
           (racers w) (stat_denied w) (trace w))).

(** [print] *)
Definition print (msg : string) : M unit := modify (emit (Printed msg)).

(** [os.remove]: fails on a missing file, and not otherwise (the directory
    is writable, and nobody else removes the file). *)
Definition remove (p : string) : M unit :=
  fun w => match fs w !! p with
           | Some _ => (Ok tt, emit (Removed p) (set_fs (delete p) w))
           | None => (Raise (FileNotFoundError p), w)
           end.

(** [os.replace]: one step; afterwards [dst] is the file that was [src]. *)
Definition replace (src dst : string) : M unit :=
  fun w => match fs w !! src with
           | Some f => (Ok tt, emit (Replaced src dst)
                                 (set_fs (fun m => <[dst := f]> (delete src m)) w))
           | None => (Raise (FileNotFoundError src), w)
           end.

(** [shutil.copystat(src, dst)] *)
Definition copystat (src dst : string) : M unit :=
  fun w => match fs w !! src, fs w !! dst with
           | Some s, Some d =>
               if bool_decide (dst ∈ stat_denied w)
               then (Raise (PermissionError dst), w)
               else (Ok tt, emit (StatCopied src dst)
                      (set_fs (<[dst := File (data d) (ctime d) (stat s)]>) w))
           | None, _ => (Raise (FileNotFoundError src), w)
           | _, None => (Raise (FileNotFoundError dst), w)
           end.

(** Metadata of a file created by this process. *)
Definition DEFAULT_STAT : Z := 0.

(** [open(p, "w")] / [open(p, "wb")]: create the file, or truncate it. *)
Definition open_w (p : string) : M unit :=
  modify (fun w =>
    let f := match fs w !! p with
             | Some old => File [] (ctime old) (stat old)
             | None => File [] (now w) DEFAULT_STAT
             end in
    emit (Opened p) (set_fs (<[p := f]>) w)).

(** Bytes written through an open descriptor reach the file. *)
Definition append (p : string) (bs : list byte) : M unit :=
  modify (set_fs (alter (fun f => File (data f ++ bs) (ctime f) (stat f)) p)).

(** The next entry of the race schedule. *)
Definition next_racer : M (option (list byte)) :=
  fun w => match racers w with
           | r :: rs => (Ok r, World (fs w) (now w) (live w) (self_pid w)
                                     (entropy w) rs (stat_denied w) (trace w))
           | [] => (Ok None, w)
           end.

(** [os.open(p, O_CREAT | O_EXCL | O_WRONLY)]: fails when the file exists,
    be it because another process created it just before, and not otherwise
    (the directory exists and is writable). *)
Definition open_excl (p : string) : M unit :=
  r <- next_racer ;;
  match r with
  | Some bs =>
      modify (fun w => emit (Raced p) (set_fs (<[p := File bs (now w) DEFAULT_STAT]>) w)) ;;
      raise (FileExistsError p)
  | None =>
      fun w => match fs w !! p with
               | Some _ => (Raise (FileExistsError p), w)
               | None => (Ok tt, emit (Created p)
                                   (set_fs (<[p := File [] (now w) DEFAULT_STAT]>) w))
               end
  end.

(** [open(p, "rb")]: the bytes of the file. *)
Definition read_bytes (p : string) : M (list byte) :=
  fun w => match fs w !! p with
           | Some f => (Ok (data f), w)
           | None => (Raise (FileNotFoundError p), w)
           end.

(** The next [uuid.uuid4()] draw, reduced to its leading 32 bits. *)
Definition uuid4 : M N :=
  fun w => match entropy w with
           | r :: rs => (Ok r, World (fs w) (now w) (live w) (self_pid w)
                                     rs (racers w) (stat_denied w) (trace w))
           | [] => (Ok 0%N, w)
           end.

(** [psutil.pid_exists] *)
Definition pid_exists (pid : Z) (w : world) : bool := bool_decide (pid ∈ live w).

End OS.

(* ===================================================================== *)
(** * Data model                                                         *)
(* ===================================================================== *)

(** The dictionary [lock_parse] returns. *)
Record lock_dict := LockDict {
  d_pid : option Z;
  d_session_hash : option string;
  d_timestamp : option string
}.

(** The [LockInfo] dataclass. *)
Module LockInfo.
Record t := mk {
  path : string;
  exists_ : bool;
  pid : option Z;
  alive : bool;
  session_hash : option string;
  timestamp : option string;
  corrupt : bool
}.
End LockInfo.

(** The attributes of an [AtomicWriter] that [__init__] sets. *)
Module AtomicWriter.
Record t := mk {
  path : string;
  tmpfile : string;
  retries : nat;
  delay : N;
  simulate : bool;
  session : option string;
  force : bool;
  encoding : Codec.codec
}.
End AtomicWriter.

(** The attributes of an [AtomicReader]. *)
Module AtomicReader.
Record t := mk {
  path : string;
  retries : nat;
  delay : N;
  require_lock : bool;
  encoding : Codec.codec
}.
End AtomicReader.

(** File objects. *)
Inductive handle :=
| Sink                                          (* [open(os.devnull, "w")] *)
| TextWriter (p : string) (k : Codec.codec)     (* [open(p, "w", encoding=k)] *)
| BinWriter (p : string)                        (* [open(p, "wb")] *)
| TextReader (bs : list byte) (k : Codec.codec) (* [open(p, "r", encoding=k)] *)
| BinReader (bs : list byte).                   (* [open(p, "rb")] *)

Inductive mode := mode_r | mode_w | mode_rb | mode_wb.

(** What the caller does inside [with AtomicWriter(...) as f:]: it writes some
    pieces of text to [f], and then possibly raises. *)
Record block := Block {
  chunks : list string;
  fails : option string
}.

Definition DEFAULT_RETRIES : nat := 5.
Definition DEFAULT_DELAY : N := 100.
Definition LOCK_SEPARATOR : ascii := "|".

(* ===================================================================== *)
(** * Lock record codec and lock inspection                              *)
(* ===================================================================== *)

(** [session_hash or ''] *)
Definition or_empty (o : option string) : string := default EmptyString o.

(** [s or None] *)
Definition or_None (s : string) : option string :=
  if PyStr.is_empty s then None else Some s.

(** [lock_render] *)
Definition lock_render (pid : Z) (session_hash : option string) (timestamp : string) : string :=
  PyStr.str_of_int pid +:+ String LOCK_SEPARATOR (or_empty session_hash)
    +:+ String LOCK_SEPARATOR timestamp.

(** [lock_parse]; [parts[1]] raises [IndexError] when there is one part. *)
Definition lock_parse (content : string) : res lock_dict :=
  match PyStr.split LOCK_SEPARATOR (PyStr.strip content) with
  | [] => Raise IndexError
  | p0 :: rest =>
      let pid :=
        if PyStr.isdigit p0
        then match PyStr.int p0 with
             | Some z => Ok (Some z)
             | None => Raise ValueError
             end
        else Ok None in
      match pid with
      | Raise e => Raise e
      | Ok pid =>
          match rest with
          | [] => Raise IndexError
          | p1 :: rest' =>
              Ok (LockDict pid (or_None p1)
                    (match rest' with p2 :: _ => Some p2 | [] => None end))
          end
      end
  end.

(** [is_locked] *)
Definition is_locked (path : string) (w : world) : bool :=
  OS.exists_ (Paths.get_lock_path path) w.

(** [get_lock_age] *)
Definition get_lock_age (path : string) (w : world) : Z :=
  match fs w !! Paths.get_lock_path path with
  | Some f => now w - ctime f
  | None => 0
  end.

(** [is_stale_lock] *)
Definition is_stale_lock (path : string) (max_age_s : Z) (w : world) : bool :=
  if is_locked path w then get_lock_age path w >? max_age_s else false.

(** [force_release_lock] *)
Definition force_release_lock (path : string) : M unit :=
  let lp := Paths.get_lock_path path in
  e <- gets (OS.exists_ lp) ;;
  if e then OS.remove lp else ret tt.

(** [release_stale_lock] *)
Definition release_stale_lock (path : string) (max_age_s : Z) : M unit :=
  s <- gets (is_stale_lock path max_age_s) ;;
  if s then force_release_lock path else ret tt.

(** [release_lock] *)
Definition release_lock (path : string) : M unit := force_release_lock path.

(** [is_process_alive] *)
Definition is_process_alive (pid : Z) (w : world) : bool := OS.pid_exists pid w.

(** [f.write(s)] on a file opened in text mode with codec [k]: the piece is
    encoded on its own, as the incremental encoder of an encoding without
    state does. *)
Definition write_text (k : Codec.codec) (p : string) (s : string) : M unit :=
  match Codec.enc k s with
  | Some bs => OS.append p bs
  | None => raise UnicodeEncodeError
  end.

(** [f.read()] of bytes [bs] in text mode with codec [k]. *)
Definition decode_text (k : Codec.codec) (bs : list byte) : res string :=
  match Codec.dec k bs with
  | Some s => Ok (PyStr.universal_newlines s)
  | None => Raise UnicodeDecodeError
  end.

(** [open_atomic] *)
Definition open_atomic (path : string) (m : mode) (encoding : Codec.codec) : M handle :=
  match m with
  | mode_w => OS.open_w path ;; ret (TextWriter path encoding)
  | mode_wb => OS.open_w path ;; ret (BinWriter path)
  | mode_r => bs <- OS.read_bytes path ;; ret (TextReader bs encoding)
  | mode_rb => bs <- OS.read_bytes path ;; ret (BinReader bs)
  end.

(** [f.write(s)] *)
Definition handle_write (f : handle) (s : string) : M unit :=
  match f with
  | Sink => match Codec.enc Codec.locale s with
            | Some _ => ret tt
            | None => raise UnicodeEncodeError
            end
  | TextWriter p k => write_text k p s
  | _ => raise ValueError
  end.

(** [f.read()] *)
Definition handle_read (f : handle) : M string :=
  match f with
  | TextReader bs k => lift (decode_text k bs)
  | _ => raise ValueError
  end.

(** [pid] is truthy: neither [None] nor [0]. *)
Definition truthy_pid (pid : option Z) : option Z :=
  match pid with
  | Some p => if p =? 0 then None else Some p
  | None => None
  end.

(** [inspect_lock].  It only reads, so it is a function of the world; any
    exception of the read or of [lock_parse] gives the corrupt record. *)
Definition inspect_lock (path : string) (w : world) : LockInfo.t :=
  let lp := Paths.get_lock_path path in
  if negb (OS.exists_ lp w) then LockInfo.mk lp false None false None None false
  else
    let parsed :=
      match fst (OS.read_bytes lp w) with
      | Ok bs => match decode_text Codec.locale bs with
                 | Ok content => lock_parse content
                 | Raise e => Raise e
                 end
      | Raise e => Raise e
      end in
    match parsed with
    | Ok d =>
        let pid := d_pid d in
        LockInfo.mk lp true pid
          (match truthy_pid pid with
           | Some p => is_process_alive p w
           | None => false
           end)
          (d_session_hash d) (d_timestamp d) false
    | Raise _ => LockInfo.mk lp true None false None None true
    end.

(** The metadata copy of the move and of the write session:
    [try: shutil.copystat(src, dst)] / [except Exception as e: print(...)]. *)
Definition try_copystat (src dst : string) : M unit :=
  r <- attempt (OS.copystat src dst) ;;
  match r with
  | Ok _ => ret tt
  | Raise _ => OS.print "Error: Failed to copy metadata"
  end.

(** [_move_atomic] *)
Definition _move_atomic (src dst : string) (force : bool) : M unit :=
  e <- gets (OS.exists_ dst) ;;
  (if e then
     if negb force then raise (FileExistsError dst)
     else try_copystat dst src
   else ret tt) ;;
  OS.replace src dst.

(** [move_atomic] *)
Definition move_atomic (src dst : string) (force : bool) : M unit :=
  _move_atomic src dst force.

(** [move_atomic_force] *)
Definition move_atomic_force (src dst : string) : M unit :=
  _move_atomic src dst true.

(** [get_tmp_path], drawing the random token from the world. *)
Definition get_tmp_path (path : string) : M string :=
  r <- OS.uuid4 ;; ret (Paths.get_tmp_path r path).

(** [AtomicReader.__enter__] *)
Definition AtomicReader_enter (self : AtomicReader.t) : M handle :=
  let path := AtomicReader.path self in
  for_range (AtomicReader.retries self)
    (locked <- gets (is_locked path) ;;
     if negb (AtomicReader.require_lock self) || negb locked then
       r <- attempt (open_atomic path mode_r (AtomicReader.encoding self)) ;;
       match r with
       | Ok f => ret (Return f)
       | Raise (FileNotFoundError _) => OS.sleep (AtomicReader.delay self) ;; ret Next
       | Raise e => raise e
       end
     else OS.sleep (AtomicReader.delay self) ;; ret Next)
    (raise (RuntimeError ("Error: Read failed or locked: '" +:+ path +:+ "'"))).

(** [AtomicReader.__exit__]: closes the file. *)
Definition AtomicReader_exit (self : AtomicReader.t) : M unit := ret tt.

(** [read_atomic] *)
Definition read_atomic (path : string) (retries : nat) (delay : N)
    (require_lock : bool) (encoding : Codec.codec) : M string :=
  let self := AtomicReader.mk path retries delay require_lock encoding in
  with_ (AtomicReader_enter self) (AtomicReader_exit self) handle_read.

(** The caller's block, run on the file object of the session. *)
Fixpoint write_chunks (f : handle) (cs : list string) : M unit :=
  match cs with
  | [] => ret tt
  | c :: cs' => handle_write f c ;; write_chunks f cs'
  end.

Definition run_block (b : block) (f : handle) : M unit :=
  write_chunks f (chunks b) ;;
  match fails b with
  | Some tag => raise (BlockError tag)
  | None => ret tt
  end.

Section Safeatomic.

(** [hashlib.sha256(bs).hexdigest()] *)
Variable sha256_hexdigest : list byte -> string.
(** [datetime.fromtimestamp(t, timezone.utc).isoformat()] *)
Variable utc_isoformat : Z -> string.

(** [session_to_hash] *)
Definition session_to_hash (session : option string) : option string :=
  match session with
  | Some s =>
      if PyStr.is_empty s then None
      else Some (PyStr.take 8 (sha256_hexdigest (Codec.utf8_enc s)))
  | None => None
  end.

(** One iteration of the loop of [try_acquire_lock]. *)
Definition acquire_attempt (path : string) (delay : N) (force : bool)
    (session_hash : option string) (timestamp : string) : M (flow bool) :=
  let lp := Paths.get_lock_path path in
  e <- gets (OS.exists_ lp) ;;
  if negb e then
    r <- attempt (OS.open_excl lp ;;
                  pid <- gets self_pid ;;
                  write_text Codec.locale lp (lock_render pid session_hash timestamp)) ;;
    match r with
    | Ok _ => ret (Return true)
    | Raise (FileExistsError _) => OS.sleep delay ;; ret Next
    | Raise e => raise e
    end
  else
    info <- gets (inspect_lock path) ;;
    if negb (LockInfo.alive info) || force
    then force_release_lock path ;; ret Next
    else OS.sleep delay ;; ret Next.

(** [try_acquire_lock] *)
Definition try_acquire_lock (path : string) (retries : nat) (delay : N)
    (session : option string) (force : bool) : M bool :=
  let session_hash := session_to_hash session in
  timestamp <- gets (fun w => utc_isoformat (now w)) ;;
  for_range retries (acquire_attempt path delay force session_hash timestamp)
    (ret false).

(** [AtomicWriter.__init__] *)
Definition AtomicWriter_init (path : string) (retries : nat) (delay : N)
    (simulate : bool) (session : option string) (force : bool)
    (encoding : Codec.codec) : M AtomicWriter.t :=
  tmpfile <- get_tmp_path path ;;
  ret (AtomicWriter.mk path tmpfile retries delay simulate session force encoding).

(** [AtomicWriter.__enter__] *)
Definition AtomicWriter_enter (self : AtomicWriter.t) : M handle :=
  if AtomicWriter.simulate self then ret Sink
  else
    ok <- try_acquire_lock (AtomicWriter.path self) (AtomicWriter.retries self)
            (AtomicWriter.delay self) (AtomicWriter.session self)
            (AtomicWriter.force self) ;;
    if negb ok then
      raise (RuntimeError ("Error: Lock already held or persistent: '"
                             +:+ AtomicWriter.path self +:+ "'"))
    else open_atomic (AtomicWriter.tmpfile self) mode_w (AtomicWriter.encoding self).

(** [AtomicWriter.__exit__].  The exception of the block, if any, is not
    looked at.  Closing the file flushes it; writes reach the file at once
    here, so closing changes nothing. *)
Definition AtomicWriter_exit (self : AtomicWriter.t) : M unit :=
  let path := AtomicWriter.path self in
  let tmpfile := AtomicWriter.tmpfile self in
  try_finally
    (if negb (AtomicWriter.simulate self) then
       e <- gets (OS.exists_ path) ;;
       (if e then try_copystat path tmpfile else ret tt) ;;
       OS.replace tmpfile path
     else ret tt)
    (if negb (AtomicWriter.simulate self) then
       force_release_lock path ;;
       e <- gets (OS.exists_ tmpfile) ;;
       if e then OS.remove tmpfile else ret tt
     else ret tt).

(** [with self as f: block(f)] *)
Definition AtomicWriter_session (self : AtomicWriter.t) (b : block) : M unit :=
  with_ (AtomicWriter_enter self) (AtomicWriter_exit self) (run_block b).

(** [write_atomic] *)
Definition write_atomic (path : string) (data : string) (retries : nat)
    (delay : N) (simulate : bool) (session : option string) (force : bool)
    (encoding : Codec.codec) : M unit :=
  self <- AtomicWriter_init path retries delay simulate session force encoding ;;
  with_ (AtomicWriter_enter self) (AtomicWriter_exit self)
        (fun f => handle_write f data).

(** ** Format wrappers *)

(** Python objects, and the serializers; [None] is an exception of the
    serializer. *)
Variable V : Type.
Variable json_dumps : V -> option string.
Variable json_loads : string -> option V.
Variable yaml_safe_dump : V -> option string.
Variable yaml_safe_load : string -> option V.
Variable pickle_dumps : V -> option (list byte).
Variable pickle_loads : list byte -> option V.
(** [pickle.dump(obj, f)] streams into the open file: [pickle_dumps obj] is
    what it has written when it returns, [pickle_partial obj] what it has
    written by the time it raises. *)
Variable pickle_partial : V -> list byte.
(** [y.dump(data, f)] of ruamel.yaml writes to the open file piece by piece
    and may raise in between: a block.  [y.load(text)] parses. *)
Variable ruamel_dump : V -> block.
Variable ruamel_load : string -> option V.

Definition of_option {A} (o : option A) : M A :=
  match o with
  | Some a => ret a
  | None => raise SerializerError
  end.

(** [atomic_yaml_dump] *)
Definition atomic_yaml_dump (path : string) (obj : V) (encoding : Codec.codec) : M unit :=
  text <- of_option (yaml_safe_dump obj) ;;
  write_atomic path text DEFAULT_RETRIES DEFAULT_DELAY false None false encoding.

(** [atomic_yaml_load] *)
Definition atomic_yaml_load (path : string) (encoding : Codec.codec) : M V :=
  text <- read_atomic path DEFAULT_RETRIES DEFAULT_DELAY false encoding ;;
  of_option (yaml_safe_load text).

(** [atomic_json_dump] *)
Definition atomic_json_dump (path : string) (obj : V) (encoding : Codec.codec) : M unit :=
  text <- of_option (json_dumps obj) ;;
  write_atomic path text DEFAULT_RETRIES DEFAULT_DELAY false None false encoding.

(** [atomic_json_load] *)
Definition atomic_json_load (path : string) (encoding : Codec.codec) : M V :=
  text <- read_atomic path DEFAULT_RETRIES DEFAULT_DELAY false encoding ;;
  of_option (json_loads text).

(** [atomic_pickle_write]; [pickle.dump] writes into the open temporary
    file, also when it ends up raising. *)
Definition atomic_pickle_write (path : string) (obj : V) : M unit :=
  tmp_path <- get_tmp_path path ;;
  open_atomic tmp_path mode_wb Codec.utf8 ;;
  match pickle_dumps obj with
  | Some bs => OS.append tmp_path bs
  | None => OS.append tmp_path (pickle_partial obj) ;; raise SerializerError
  end ;;
  e <- gets (OS.exists_ path) ;;
  (if e then try_copystat path tmp_path else ret tt) ;;
  OS.replace tmp_path path.

(** [atomic_pickle_read] *)
Definition atomic_pickle_read (path : string) : M V :=
  open_atomic path mode_rb Codec.utf8 ;;
  bs <- OS.read_bytes path ;;
  of_option (pickle_loads bs).

(** [atomic_yaml_dump_ruamel]: the dumper runs inside the write session,
    with the session's defaults. *)
Definition atomic_yaml_dump_ruamel (path : string) (data : V)
    (encoding : Codec.codec) : M unit :=
  self <- AtomicWriter_init path DEFAULT_RETRIES DEFAULT_DELAY false None false
            encoding ;;
  AtomicWriter_session self (ruamel_dump data).

(** [atomic_yaml_load_ruamel] *)
Definition atomic_yaml_load_ruamel (path : string) (encoding : Codec.codec) : M V :=
  text <- read_atomic path DEFAULT_RETRIES DEFAULT_DELAY false encoding ;;
  of_option (ruamel_load text).


(* =================================================================== *)
(** * Lemmas on text                                                   *)
(* =================================================================== *)

Local Arguments String.append !_ _ / : simpl nomatch.

Lemma all_app p a b : PyStr.all p (a +:+ b) = PyStr.all p a && PyStr.all p b.
Proof.
  induction a as [|c r IH]; simpl; [reflexivity|].
  rewrite IH. apply andb_assoc.
Qed.

Lemma all_impl (p q : ascii -> bool) s :
  (forall c, p c = true -> q c = true) ->
  PyStr.all p s = true -> PyStr.all q s = true.
Proof.
  intros Hpq. induction s as [|c r IH]; simpl; [reflexivity|].
  rewrite !andb_true_iff. intros [Hc Hr]. split; auto.
Qed.

Lemma lstrip_app_sep x a b :
  PyStr.isspace x = false ->
  PyStr.lstrip (a +:+ String x b) = PyStr.lstrip a +:+ String x b.
Proof.
  intros Hx. induction a as [|c r IH]; simpl.
  - now rewrite Hx.
  - destruct (PyStr.isspace c); [exact IH | reflexivity].
Qed.

Lemma rstrip_app_sep x a b :
  PyStr.isspace x = false ->
  PyStr.rstrip (a +:+ String x b) = a +:+ String x (PyStr.rstrip b).
Proof.
  intros Hx. induction a as [|c r IH]; simpl.
  - now rewrite Hx.
  - rewrite IH. destruct r; simpl; now rewrite andb_false_r.
Qed.

Lemma strip_app_sep x a b :
  PyStr.isspace x = false ->
  PyStr.strip (a +:+ String x b) = PyStr.lstrip a +:+ String x (PyStr.rstrip b).
Proof.
  intros Hx. unfold PyStr.strip.
  now rewrite lstrip_app_sep, rstrip_app_sep.
Qed.

Lemma lstrip_all p s : PyStr.all p s = true -> PyStr.all p (PyStr.lstrip s) = true.
Proof.
  induction s as [|c r IH]; simpl; [reflexivity|].
  intros H. destruct (PyStr.isspace c); [|exact H].
  apply IH. now apply andb_true_iff in H.
Qed.

Definition is_not (x : ascii) (c : ascii) : bool := negb (Ascii.eqb c x).

Lemma split_app_sep sep a b :
  PyStr.all (is_not sep) a = true ->
  PyStr.split sep (a +:+ String sep b) = a :: PyStr.split sep b.
Proof.
  induction a as [|c r IH]; simpl.
  - intros _. now rewrite Ascii.eqb_refl.
  - unfold is_not at 1. rewrite andb_true_iff, negb_true_iff.
    intros [Hc Hr]. rewrite Hc, (IH Hr). reflexivity.
Qed.

Lemma split_not_nil sep s : PyStr.split sep s <> [].
Proof.
  destruct s as [|c r]; simpl; [discriminate|].
  destruct (Ascii.eqb c sep); [discriminate|].
  destruct (PyStr.split sep r); discriminate.
Qed.

Lemma universal_newlines_app a b :
  PyStr.all (is_not "013") a = true ->
  PyStr.universal_newlines (a +:+ b) = a +:+ PyStr.universal_newlines b.
Proof.
  induction a as [|c r IH]; simpl; [reflexivity|].
  unfold is_not at 1. rewrite andb_true_iff, negb_true_iff.
  intros [Hc Hr]. rewrite Hc, (IH Hr). reflexivity.
Qed.

Lemma universal_newlines_id s :
  PyStr.all (is_not "013") s = true -> PyStr.universal_newlines s = s.
Proof.
  induction s as [|c r IH]; simpl; [reflexivity|].
  unfold is_not at 1. rewrite andb_true_iff, negb_true_iff.
  intros [Hc Hr]. rewrite Hc, (IH Hr). reflexivity.
Qed.

(** The characters of a rendered integer: decimal digits and the sign. *)
Definition int_char (c : ascii) : bool := PyStr.isdecimal c || Ascii.eqb c "-".

Lemma digit_char_decimal d : (d < 10)%N -> PyStr.isdecimal (PyStr.digit_char d) = true.
Proof.
  intros H.
  assert (Hd : (d = 0 \/ d = 1 \/ d = 2 \/ d = 3 \/ d = 4 \/ d = 5 \/ d = 6
                \/ d = 7 \/ d = 8 \/ d = 9)%N) by lia.
  repeat (destruct Hd as [-> | Hd]; [reflexivity|]). now subst.
Qed.

Lemma decimal_digits_chars fuel n acc :
  PyStr.all int_char acc = true ->
  PyStr.all int_char (PyStr.decimal_digits fuel n acc) = true.
Proof.
  revert n acc. induction fuel as [|fuel IH]; intros n acc Hacc; simpl; [exact Hacc|].
  assert (Hd : PyStr.all int_char (String (PyStr.digit_char (n mod 10)) acc) = true).
  { simpl. rewrite Hacc, andb_true_r. unfold int_char.
    rewrite digit_char_decimal; [reflexivity|].
    apply N.mod_upper_bound. discriminate. }
  destruct (n <? 10)%N; [exact Hd | now apply IH].
Qed.

Lemma str_of_int_chars z : PyStr.all int_char (PyStr.str_of_int z) = true.
Proof.
  unfold PyStr.str_of_int, PyStr.str_of_N.
  destruct (z <? 0).
  - change (int_char "-" && PyStr.all int_char
              (PyStr.decimal_digits (S (N.to_nat (N.log2 (Z.to_N (- z)))))
                 (Z.to_N (- z)) EmptyString) = true).
    now rewrite decimal_digits_chars.
  - now apply decimal_digits_chars.
Qed.

Lemma int_char_not_sep c : int_char c = true -> is_not LOCK_SEPARATOR c = true.
Proof.
  destruct c as [[] [] [] [] [] [] [] []]; vm_compute; congruence.
Qed.

Lemma int_char_not_cr c : int_char c = true -> is_not "013" c = true.
Proof.
  destruct c as [[] [] [] [] [] [] [] []]; vm_compute; congruence.
Qed.

Lemma string_length_app a b : String.length (a +:+ b) = (String.length a + String.length b)%nat.
Proof. induction a as [|c r IH]; simpl; [reflexivity | now rewrite IH]. Qed.

Lemma app_assoc_str a b c : (a +:+ b) +:+ c = a +:+ (b +:+ c).
Proof. induction a as [|x r IH]; simpl; [reflexivity | now rewrite IH]. Qed.

(* =================================================================== *)
(** * Lemmas on encodings                                              *)
(* =================================================================== *)

Lemma utf8_dec_enc_char c rest :
  Codec.utf8_dec (Codec.utf8_enc_char c ++ rest) = String c <$> Codec.utf8_dec rest.
Proof. destruct c as [[] [] [] [] [] [] [] []]; reflexivity. Qed.

Lemma utf8_dec_enc s : Codec.utf8_dec (Codec.utf8_enc s) = Some s.
Proof.
  induction s as [|c r IH]; [reflexivity|].
  change (Codec.utf8_enc (String c r)) with (Codec.utf8_enc_char c ++ Codec.utf8_enc r).
  now rewrite utf8_dec_enc_char, IH.
Qed.

Lemma utf8_lossless : Codec.lossless Codec.utf8.
Proof. intros s bs [= <-]. apply utf8_dec_enc. Qed.

Lemma latin1_lossless : Codec.lossless Codec.latin1.
Proof.
  intros s bs [= <-]. simpl. now rewrite string_of_list_byte_of_string.
Qed.

Lemma ascii_lossless : Codec.lossless Codec.ascii.
Proof.
  intros s bs. simpl. destruct (PyStr.all Codec.is_ascii_char s) eqn:E; [|discriminate].
  intros [= <-]. now rewrite string_of_list_byte_of_string, E.
Qed.

(* =================================================================== *)
(** * Lemmas on paths: the three paths of a session are distinct       *)
(* =================================================================== *)

Abbreviation no_slash := (PyStr.all (is_not "/")).

Lemma rsplit_no_slash n : no_slash n = true -> Paths.rsplit n = (EmptyString, n).
Proof.
  induction n as [|c r IH]; simpl; [reflexivity|].
  unfold is_not at 1. rewrite andb_true_iff, negb_true_iff.
  intros [Hc Hr]. rewrite (IH Hr). simpl. now rewrite Hc.
Qed.

Lemma rsplit_app_slash x n :
  no_slash n = true -> Paths.ends_with_slash x = true ->
  Paths.rsplit (x +:+ n) = (x, n).
Proof.
  intros Hn. induction x as [|c r IH]; [discriminate|].
  destruct r as [|c' r'].
  - simpl. intros Hc. rewrite (rsplit_no_slash n Hn). simpl. rewrite Hc.
    apply Ascii.eqb_eq in Hc. now subst.
  - intros H. change (Paths.ends_with_slash (String c' r') = true) in H.
    specialize (IH H).
    change (Paths.rsplit (String c (String c' r' +:+ n))
            = (String c (String c' r'), n)).
    cbn [Paths.rsplit]. rewrite IH. reflexivity.
Qed.

Lemma rsplit_snd_no_slash p : no_slash (snd (Paths.rsplit p)) = true.
Proof.
  induction p as [|c r IH]; simpl; [reflexivity|].
  destruct (Paths.rsplit r) as [h t]. simpl in IH.
  destruct (PyStr.is_empty h); simpl; [|exact IH].
  destruct (Ascii.eqb c "/") eqn:E; simpl; [exact IH|].
  unfold is_not at 1. now rewrite E, IH.
Qed.

Lemma rsplit_app_no_slash p s :
  no_slash s = true ->
  Paths.rsplit (p +:+ s) = (fst (Paths.rsplit p), snd (Paths.rsplit p) +:+ s).
Proof.
  intros Hs. induction p as [|c r IH]; simpl.
  - now rewrite (rsplit_no_slash s Hs).
  - rewrite IH. destruct (Paths.rsplit r) as [h t]. simpl.
    destruct (PyStr.is_empty h); simpl; [|reflexivity].
    destruct (Ascii.eqb c "/"); reflexivity.
Qed.

Lemma ends_with_slash_app d : Paths.ends_with_slash (d +:+ "/") = true.
Proof.
  induction d as [|c r IH]; [reflexivity|].
  destruct r; [reflexivity | exact IH].
Qed.

Lemma basename_join d n :
  no_slash n = true -> Paths.basename (Paths.join d n) = n.
Proof.
  intros Hn. unfold Paths.basename, Paths.join.
  assert (Hgen : snd (Paths.rsplit
            (if PyStr.is_empty d || Paths.ends_with_slash d
             then d +:+ n else d +:+ "/" +:+ n)) = n).
  { destruct d as [|c r].
    - simpl. now rewrite (rsplit_no_slash n Hn).
    - cbn [PyStr.is_empty orb].
      destruct (Paths.ends_with_slash (String c r)) eqn:E.
      + now rewrite rsplit_app_slash.
      + rewrite <- app_assoc_str.
        rewrite rsplit_app_slash; auto using ends_with_slash_app. }
  destruct n as [|x n']; [exact Hgen|].
  destruct x as [[] [] [] [] [] [] [] []]; try exact Hgen.
  discriminate Hn.
Qed.

Lemma hex_digit_no_slash d : is_not "/" (Paths.hex_digit d) = true.
Proof.
  destruct d as [|p]; [reflexivity|].
  repeat (destruct p as [p|p|]; try reflexivity).
Qed.

Lemma hex_digits_no_slash k n acc :
  no_slash acc = true -> no_slash (Paths.hex_digits k n acc) = true.
Proof.
  revert n acc. induction k as [|k IH]; intros n acc H; simpl; [exact H|].
  apply IH. simpl. now rewrite hex_digit_no_slash, H.
Qed.

Lemma hex_digits_length k n acc :
  String.length (Paths.hex_digits k n acc) = (k + String.length acc)%nat.
Proof.
  revert n acc. induction k as [|k IH]; intros n acc; simpl; [reflexivity|].
  rewrite IH. simpl. lia.
Qed.

(** The base name of the temporary file of a session. *)
Definition tmp_name (rand : N) (path : string) : string :=
  Paths.TMP_PREFIX +:+ Paths.hex8 rand +:+ "." +:+ Paths.basename path
    +:+ Paths.TMP_SUFFIX.

Lemma tmp_name_no_slash rand path : no_slash (tmp_name rand path) = true.
Proof.
  unfold tmp_name. rewrite !all_app.
  unfold Paths.hex8. rewrite hex_digits_no_slash by reflexivity.
  unfold Paths.basename. rewrite rsplit_snd_no_slash. reflexivity.
Qed.

Lemma basename_tmp rand path :
  Paths.basename (Paths.get_tmp_path rand path) = tmp_name rand path.
Proof. apply basename_join, tmp_name_no_slash. Qed.

Lemma tmp_name_length rand path :
  String.length (tmp_name rand path)
  = (20 + String.length (Paths.basename path))%nat.
Proof.
  unfold tmp_name, Paths.hex8. rewrite !string_length_app, hex_digits_length.
  simpl. lia.
Qed.

Lemma tmp_path_ne_path rand path : Paths.get_tmp_path rand path <> path.
Proof.
  intros H. apply (f_equal Paths.basename) in H.
  rewrite basename_tmp in H. apply (f_equal String.length) in H.
  rewrite tmp_name_length in H. lia.
Qed.

Lemma tmp_path_ne_lock rand path :
  Paths.get_tmp_path rand path <> Paths.get_lock_path path.
Proof.
  intros H. apply (f_equal Paths.basename) in H.
  rewrite basename_tmp in H. unfold Paths.get_lock_path, Paths.basename in H.
  rewrite rsplit_app_no_slash in H by reflexivity. simpl in H.
  apply (f_equal String.length) in H.
  rewrite tmp_name_length, string_length_app in H. unfold Paths.basename in H.
  simpl in H. lia.
Qed.

Lemma lock_path_ne_path path : Paths.get_lock_path path <> path.
Proof.
  intros H. apply (f_equal String.length) in H.
  unfold Paths.get_lock_path in H. rewrite string_length_app in H. simpl in H. lia.
Qed.

(* =================================================================== *)
(** * The lock manager                                                 *)
(* =================================================================== *)

Arguments bind {A B} m k w /.
Arguments ret {A} a w /.
Arguments raise {A} e w /.
Arguments attempt {A} m w /.
Arguments lift {A} r w /.
Arguments gets {A} f w /.
Arguments modify f w /.
Arguments try_finally {A} body cleanup w /.
Arguments with_ {H A} enter exit body w /.
Arguments OS.sleep d w /.
Arguments OS.print msg w /.
Arguments OS.remove p w /.
Arguments OS.replace src dst w /.
Arguments OS.copystat src dst w /.
Arguments OS.open_w p w /.
Arguments OS.append p bs w /.
Arguments OS.next_racer w /.
Arguments OS.open_excl p w /.
Arguments OS.read_bytes p w /.
Arguments OS.uuid4 w /.
Arguments write_text k p s w /.
Arguments Paths.get_lock_path : simpl never.
Arguments Paths.get_tmp_path : simpl never.
Arguments lock_render : simpl never.
Arguments inspect_lock : simpl never.

Lemma exists_Some p w f : fs w !! p = Some f -> OS.exists_ p w = true.
Proof. intros H. unfold OS.exists_. rewrite H. reflexivity. Qed.

Lemma exists_None p w : fs w !! p = None -> OS.exists_ p w = false.
Proof. intros H. unfold OS.exists_. rewrite H. reflexivity. Qed.

(** The world after [time.sleep(d)]. *)
Definition slept (d : N) (w : world) : world := snd (OS.sleep d w).

(** The world after [os.remove(p)] of an existing file. *)
Definition removed (p : string) (w : world) : world :=
  emit (Removed p) (set_fs (delete p) w).

(** The world after the race schedule moved on by one entry. *)
Definition raced_on (w : world) : world := snd (OS.next_racer w).

(** The world after this process created the lock file [lp] and wrote the
    record [content] into it. *)
Definition locked_by_self (lp : string) (content : string) (w : world) : world :=
  let w1 := raced_on w in
  set_fs (<[lp := File (Codec.utf8_enc content) (now w) OS.DEFAULT_STAT]>)
         (emit (Created lp) w1).

(** The world after another process won the race for [lp] and this one
    slept on it. *)
Definition lost_race (lp : string) (bs : list byte) (d : N) (w : world) : world :=
  let w1 := raced_on w in
  slept d (emit (Raced lp) (set_fs (<[lp := File bs (now w) OS.DEFAULT_STAT]>) w1)).

(** What one iteration of the acquire loop does, case by case. *)
Lemma acquire_attempt_cases path delay force h ts w :
  let lp := Paths.get_lock_path path in
  acquire_attempt path delay force h ts w =
  match fs w !! lp with
  | None =>
      match racers w with
      | Some bs :: _ => (Ok Next, lost_race lp bs delay w)
      | _ => (Ok (Return true),
              locked_by_self lp (lock_render (self_pid w) h ts) w)
      end
  | Some _ =>
      if negb (LockInfo.alive (inspect_lock path w)) || force
      then (Ok Next, removed lp w)
      else (Ok Next, slept delay w)
  end.
Proof.
  intros lp. subst lp. unfold acquire_attempt. simpl.
  destruct (fs w !! Paths.get_lock_path path) as [f|] eqn:E.
  - rewrite (exists_Some _ _ _ E). simpl.
    destruct (negb _ || force); simpl; [|reflexivity].
    unfold force_release_lock. simpl. rewrite (exists_Some _ _ _ E). simpl.
    now rewrite E.
  - rewrite (exists_None _ _ E). simpl.
    unfold locked_by_self, lost_race, raced_on, slept.
    destruct (racers w) as [|[bs|] rs] eqn:R; simpl; rewrite ?R, ?E; simpl;
      try reflexivity; unfold set_fs; simpl; now rewrite alter_insert_eq.
Qed.

(** Two worlds that differ at most in the file [lp], the clock, the race
    schedule and the trace. *)
Definition same_but (lp : string) (w w' : world) : Prop :=
  live w' = live w /\ self_pid w' = self_pid w /\ entropy w' = entropy w
  /\ stat_denied w' = stat_denied w
  /\ forall p, p <> lp -> fs w' !! p = fs w !! p.

Lemma same_but_refl lp w : same_but lp w w.
Proof. repeat split. Qed.

Lemma same_but_trans lp w1 w2 w3 :
  same_but lp w1 w2 -> same_but lp w2 w3 -> same_but lp w1 w3.
Proof.
  intros (A1 & A2 & A3 & A4 & A5) (B1 & B2 & B3 & B4 & B5).
  repeat split; try congruence.
  intros p Hp. rewrite (B5 p Hp). now apply A5.
Qed.

Lemma raced_on_same lp w : same_but lp w (raced_on w).
Proof. unfold raced_on. simpl. destruct (racers w); repeat split. Qed.

Lemma raced_on_fs w : fs (raced_on w) = fs w.
Proof. unfold raced_on. simpl. now destruct (racers w). Qed.

Lemma raced_on_trace w : trace (raced_on w) = trace w.
Proof. unfold raced_on. simpl. now destruct (racers w). Qed.

Lemma raced_on_now w : now (raced_on w) = now w.
Proof. unfold raced_on. simpl. now destruct (racers w). Qed.

Lemma raced_on_self_pid w : self_pid (raced_on w) = self_pid w.
Proof. unfold raced_on. simpl. now destruct (racers w). Qed.

Lemma slept_same lp d w : same_but lp w (slept d w).
Proof. repeat split. Qed.

Lemma removed_same lp w : same_but lp w (removed lp w).
Proof.
  repeat split. intros p Hp. simpl. now apply lookup_delete_ne.
Qed.

Lemma locked_by_self_same lp c w : same_but lp w (locked_by_self lp c w).
Proof.
  destruct (raced_on_same lp w) as (A1 & A2 & A3 & A4 & A5).
  repeat split; simpl; try assumption.
  intros p Hp. rewrite lookup_insert_ne by congruence. now apply A5.
Qed.

Lemma lost_race_same lp bs d w : same_but lp w (lost_race lp bs d w).
Proof.
  destruct (raced_on_same lp w) as (A1 & A2 & A3 & A4 & A5).
  repeat split; simpl; try assumption.
  intros p Hp. rewrite lookup_insert_ne by congruence. now apply A5.
Qed.

(** Events of an attempt that did not get the lock. *)
Definition waiting (lp : string) (d : N) (e : event) : Prop :=
  e = Slept d \/ e = Removed lp \/ e = Raced lp.

Lemma waiting_one lp d e : waiting lp d e -> Forall (waiting lp d) [e].
Proof. intros H. constructor; [exact H | constructor]. Qed.

Lemma waiting_two lp d e1 e2 :
  waiting lp d e1 -> waiting lp d e2 -> Forall (waiting lp d) [e1; e2].
Proof. intros H1 H2. constructor; [exact H1 | now apply waiting_one]. Qed.

Lemma waiting_slept lp d : waiting lp d (Slept d).
Proof. now left. Qed.

Lemma waiting_removed lp d : waiting lp d (Removed lp).
Proof. right. now left. Qed.

Lemma waiting_raced lp d : waiting lp d (Raced lp).
Proof. right. now right. Qed.

(** An unsuccessful attempt ends in exactly one sleep or one removal. *)
Definition ends_attempt (e : event) : bool :=
  match e with
  | Slept _ | Removed _ => true
  | _ => false
  end.

Definition attempts (evs : list event) : nat :=
  length (List.filter ends_attempt evs).

Lemma attempts_app a b : attempts (a ++ b) = (attempts a + attempts b)%nat.
Proof. unfold attempts. now rewrite List.filter_app, length_app. Qed.

(** One iteration: it never raises; it either takes the lock at once, or
    leaves the events of one unsuccessful attempt. *)
Lemma acquire_attempt_step path delay force h ts w :
  let lp := Paths.get_lock_path path in
  exists r w' evs,
    acquire_attempt path delay force h ts w = (Ok r, w')
    /\ same_but lp w w'
    /\ trace w' = trace w ++ evs
    /\ match r with
       | Return b =>
           b = true /\ evs = [Created lp] /\ now w' = now w
           /\ fs w' !! lp = Some (File (Codec.utf8_enc (lock_render (self_pid w) h ts))
                                       (now w) OS.DEFAULT_STAT)
       | Next => Forall (waiting lp delay) evs /\ attempts evs = 1%nat
       end.
Proof.
  intros lp. rewrite acquire_attempt_cases. fold lp.
  destruct (fs w !! lp) as [f|] eqn:E.
  - destruct (negb _ || force).
    + exists Next, (removed lp w), [Removed lp].
      split; [reflexivity|]. split; [apply removed_same|].
      split; [reflexivity|]. split; [|reflexivity].
      apply waiting_one, waiting_removed.
    + exists Next, (slept delay w), [Slept delay].
      split; [reflexivity|]. split; [apply slept_same|].
      split; [reflexivity|]. split; [|reflexivity].
      apply waiting_one, waiting_slept.
  - assert (Hwin : exists w', w' = locked_by_self lp (lock_render (self_pid w) h ts) w
              /\ same_but lp w w' /\ trace w' = trace w ++ [Created lp]
              /\ now w' = now w
              /\ fs w' !! lp = Some (File (Codec.utf8_enc (lock_render (self_pid w) h ts))
                                          (now w) OS.DEFAULT_STAT)).
    { eexists. split; [reflexivity|]. split; [apply locked_by_self_same|].
      simpl. rewrite raced_on_trace, raced_on_now, lookup_insert_eq. auto. }
    destruct Hwin as (w' & -> & Hs & Ht & Hn & Hf).
    destruct (racers w) as [|[bs|] rs] eqn:R.
    + eexists (Return true), _, _.
      split; [reflexivity|]. split; [exact Hs|]. split; [exact Ht|]. auto.
    + exists Next, (lost_race lp bs delay w), [Raced lp; Slept delay].
      split; [reflexivity|]. split; [apply lost_race_same|].
      split; [simpl; now rewrite raced_on_trace, <- app_assoc|].
      split; [|reflexivity].
      apply waiting_two; [apply waiting_raced | apply waiting_slept].
    + eexists (Return true), _, _.
      split; [reflexivity|]. split; [exact Hs|]. split; [exact Ht|]. auto.
Qed.

(** The loop of [try_acquire_lock]: it never raises.  When it returns
    [False] all [n] attempts were used and none created the lock file; when
    it returns [True] the last thing it did was to create the lock file
    with its own record, after fewer than [n] unsuccessful attempts. *)
Lemma acquire_loop_spec path delay force h ts n w :
  let lp := Paths.get_lock_path path in
  exists b w' evs,
    for_range n (acquire_attempt path delay force h ts) (ret false) w = (Ok b, w')
    /\ same_but lp w w'
    /\ trace w' = trace w ++ evs
    /\ if b then
         exists evs0, evs = evs0 ++ [Created lp]
           /\ Forall (waiting lp delay) evs0 /\ (attempts evs0 < n)%nat
           /\ fs w' !! lp = Some (File (Codec.utf8_enc (lock_render (self_pid w) h ts))
                                       (now w') OS.DEFAULT_STAT)
       else Forall (waiting lp delay) evs /\ attempts evs = n.
Proof.
  intros lp. revert w. induction n as [|n IH]; intros w.
  - exists false, w, []. simpl. rewrite app_nil_r.
    repeat split; auto using same_but_refl.
  - destruct (acquire_attempt_step path delay force h ts w)
      as (r & w1 & evs1 & Hrun & Hs1 & Ht1 & Hr). fold lp in Hs1, Hr.
    cbn [for_range]. unfold bind at 1. rewrite Hrun.
    destruct r as [b|].
    + destruct Hr as (-> & -> & Hn & Hf).
      exists true, w1, [Created lp].
      split; [reflexivity|]. split; [exact Hs1|]. split; [exact Ht1|].
      exists []. split; [reflexivity|]. split; [constructor|].
      split; [unfold attempts; simpl; lia|]. now rewrite Hn.
    + destruct Hr as (Hw1 & Ha1).
      destruct (IH w1) as (b & w2 & evs2 & Hrun2 & Hs2 & Ht2 & Hb).
      exists b, w2, (evs1 ++ evs2). rewrite Hrun2.
      split; [reflexivity|]. split; [eapply same_but_trans; eauto|].
      split; [now rewrite Ht2, Ht1, <- app_assoc|].
      destruct b.
      * destruct Hb as (evs0 & -> & Hw0 & Ha0 & Hf).
        exists (evs1 ++ evs0). rewrite app_assoc.
        split; [reflexivity|]. split; [now apply Forall_app|].
        split; [rewrite attempts_app; lia|].
        destruct Hs1 as (_ & Hp & _). now rewrite <- Hp.
      * destruct Hb as (Hw2 & Ha2).
        split; [now apply Forall_app | rewrite attempts_app; lia].
Qed.

(* =================================================================== *)
(** * Staleness                                                        *)
(* =================================================================== *)

(** C9.  [release_stale_lock path max_age] never raises, and it deletes the
    lock file exactly when a lock file exists and its age, the time since
    its creation, exceeds [max_age]; otherwise the world is left as it is.
    The outcome depends on the file system and the clock only, not on which
    processes are alive. *)
Theorem release_stale_lock_iff_stale path max_age_s w :
  let lp := Paths.get_lock_path path in
  let stale := match fs w !! lp with
               | Some f => now w - ctime f >? max_age_s
               | None => false
               end in
  release_stale_lock path max_age_s w
    = (Ok tt, if stale then removed lp w else w)
  /\ fs (if stale then removed lp w else w)
     = (if stale then delete lp (fs w) else fs w)
  /\ forall w2, fs w2 = fs w -> now w2 = now w ->
       fs (snd (release_stale_lock path max_age_s w2))
       = fs (snd (release_stale_lock path max_age_s w)).
Proof.
  intros lp stale.
  assert (Hrun : forall v, release_stale_lock path max_age_s v
            = (Ok tt, if match fs v !! lp with
                         | Some f => now v - ctime f >? max_age_s
                         | None => false
                         end
                      then removed lp v else v)).
  { intros v. unfold release_stale_lock, is_stale_lock, is_locked, get_lock_age.
    fold lp. simpl. destruct (fs v !! lp) as [f|] eqn:E.
    - rewrite (exists_Some _ _ _ E).
      destruct (now v - ctime f >? max_age_s); [|reflexivity].
      unfold force_release_lock. fold lp. simpl.
      rewrite (exists_Some _ _ _ E). simpl. now rewrite E.
    - now rewrite (exists_None _ _ E). }
  split; [apply Hrun|]. split; [now destruct stale|].
  intros w2 Hfs Hnow. rewrite !Hrun. simpl. rewrite Hfs, Hnow.
  destruct (fs w !! lp) as [f|]; [|exact Hfs].
  destruct (now w - ctime f >? max_age_s); simpl; now rewrite Hfs.
Qed.

(* =================================================================== *)
(** * The move primitive                                               *)
(* =================================================================== *)

(** C8.  When [dst] exists (and [src] is another, existing file): without
    [force] the move raises [FileExistsError] and changes nothing; with
    [force] it succeeds, having first tried to copy the metadata of [dst]
    onto [src] (a refusal is printed and ignored), and afterwards [dst] has
    the content of [src], [src] is gone and no other file has changed. *)
Theorem move_atomic_onto_existing src dst w fsrc fdst :
  fs w !! src = Some fsrc -> fs w !! dst = Some fdst -> src <> dst ->
  let denied := bool_decide (src ∈ stat_denied w) in
  _move_atomic src dst false w = (Raise (FileExistsError dst), w)
  /\ exists w',
      _move_atomic src dst true w = (Ok tt, w')
      /\ fs w' !! src = None
      /\ fs w' !! dst = Some (File (data fsrc) (ctime fsrc)
                                (if denied then stat fsrc else stat fdst))
      /\ (forall p, p <> src -> p <> dst -> fs w' !! p = fs w !! p)
      /\ trace w' = trace w ++
           [if denied then Printed "Error: Failed to copy metadata"
            else StatCopied dst src; Replaced src dst].
Proof.
  intros Hsrc Hdst Hne denied. unfold _move_atomic, try_copystat. simpl.
  rewrite (exists_Some _ _ _ Hdst). simpl. split; [reflexivity|].
  rewrite Hdst, Hsrc. subst denied. destruct fsrc as [d c s].
  destruct (bool_decide (src ∈ stat_denied w)); simpl.
  - rewrite Hsrc. eexists. split; [reflexivity|]. simpl.
    rewrite lookup_insert_ne, lookup_delete_eq, lookup_insert_eq by congruence.
    split; [reflexivity|]. split; [reflexivity|]. split.
    + intros p H1 H2. now rewrite lookup_insert_ne, lookup_delete_ne by congruence.
    + now rewrite <- app_assoc.
  - rewrite lookup_insert_eq. eexists. split; [reflexivity|]. simpl.
    rewrite lookup_insert_ne, lookup_delete_eq, lookup_insert_eq by congruence.
    split; [reflexivity|]. split; [reflexivity|]. split.
    + intros p H1 H2.
      now rewrite lookup_insert_ne, lookup_delete_ne, lookup_insert_ne by congruence.
    + now rewrite <- app_assoc.
Qed.

(* =================================================================== *)
(** * Inspection of a malformed lock                                   *)
(* =================================================================== *)

(** [content.strip().split("|")] *)
Definition fields (content : string) : list string :=
  PyStr.split LOCK_SEPARATOR (PyStr.strip content).

(** The owner-id field, [parts[0]]. *)
Definition owner_field (content : string) : string :=
  hd EmptyString (fields content).

(** C4, as the code has it.  For a lock file whose text has an owner-id
    field that [int] does not parse, [inspect_lock] returns a record (it
    cannot raise) with the owner id absent and the owner not alive.  It
    reports [corrupt] only when the field passes [isdigit] all the same or
    the text has fewer than two fields, and then fingerprint and time stamp
    are absent; otherwise [corrupt] is false and the fingerprint and the
    time stamp are those of the second and third fields. *)
Theorem inspect_lock_unparseable_owner path w f content :
  fs w !! Paths.get_lock_path path = Some f ->
  decode_text Codec.locale (data f) = Ok content ->
  PyStr.int (owner_field content) = None ->
  let info := inspect_lock path w in
  let parts := fields content in
  LockInfo.exists_ info = true
  /\ LockInfo.pid info = None
  /\ LockInfo.alive info = false
  /\ LockInfo.corrupt info
     = (PyStr.isdigit (owner_field content) || (length parts <? 2)%nat)
  /\ (LockInfo.corrupt info = true ->
      LockInfo.session_hash info = None /\ LockInfo.timestamp info = None)
  /\ (LockInfo.corrupt info = false ->
      LockInfo.session_hash info = parts !! 1%nat ≫= or_None
      /\ LockInfo.timestamp info = parts !! 2%nat).
Proof.
  intros E Hdec Hint info parts. subst info parts.
  unfold inspect_lock. rewrite (exists_Some _ _ _ E). simpl.
  rewrite E. simpl. rewrite Hdec. unfold lock_parse, owner_field, fields in *.
  destruct (PyStr.split LOCK_SEPARATOR (PyStr.strip content)) as [|p0 rest].
  - simpl. repeat (split || intro); (reflexivity || congruence).
  - simpl in Hint. rewrite Hint. cbn [hd].
    destruct (PyStr.isdigit p0); simpl.
    + repeat (split || intro); (reflexivity || congruence).
    + destruct rest as [|p1 rest']; simpl.
      * repeat (split || intro); (reflexivity || congruence).
      * destruct rest'; repeat (split || intro); (reflexivity || congruence).
Qed.

(* =================================================================== *)
(** * The empty session label                                          *)
(* =================================================================== *)

Lemma try_acquire_lock_loop path n delay session force w :
  try_acquire_lock path n delay session force w
  = for_range n (acquire_attempt path delay force (session_to_hash session)
                   (utc_isoformat (now w))) (ret false) w.
Proof. reflexivity. Qed.

(** [inspect_lock] on a lock file whose text is [content]. *)
Lemma inspect_lock_content path w f content :
  fs w !! Paths.get_lock_path path = Some f ->
  decode_text Codec.locale (data f) = Ok content ->
  inspect_lock path w
  = match lock_parse content with
    | Ok d =>
        LockInfo.mk (Paths.get_lock_path path) true (d_pid d)
          (match truthy_pid (d_pid d) with
           | Some p => is_process_alive p w
           | None => false
           end)
          (d_session_hash d) (d_timestamp d) false
    | Raise _ => LockInfo.mk (Paths.get_lock_path path) true None false None None true
    end.
Proof.
  intros E Hdec. unfold inspect_lock. rewrite (exists_Some _ _ _ E). simpl.
  rewrite E. simpl. now rewrite Hdec.
Qed.

(** A record rendered without a fingerprint reads back without one. *)
Lemma lock_parse_no_session pid ts :
  match lock_parse (PyStr.universal_newlines (lock_render pid None ts)) with
  | Ok d => d_session_hash d = None
  | Raise _ => True
  end.
Proof.
  unfold lock_render. simpl.
  rewrite universal_newlines_app
    by (eapply all_impl; [apply int_char_not_cr | apply str_of_int_chars]).
  simpl. unfold lock_parse.
  rewrite strip_app_sep by reflexivity.
  rewrite split_app_sep.
  2:{ apply lstrip_all. eapply all_impl; [apply int_char_not_sep | apply str_of_int_chars]. }
  simpl.
  destruct (PyStr.isdigit _); [destruct (PyStr.int _)|]; simpl; auto.
Qed.

(** C10.  The empty session label is treated as no label: its fingerprint
    is absent, acquiring with it does what acquiring without a label does,
    the lock record written has an empty fingerprint field, and a
    subsequent inspection reports no fingerprint. *)
Theorem empty_session_is_no_session path retries delay force w w' :
  try_acquire_lock path retries delay (Some EmptyString) force w = (Ok true, w') ->
  session_to_hash (Some EmptyString) = None
  /\ try_acquire_lock path retries delay None force w = (Ok true, w')
  /\ (exists f, fs w' !! Paths.get_lock_path path = Some f
        /\ data f = Codec.utf8_enc
             (lock_render (self_pid w) None (utc_isoformat (now w))))
  /\ LockInfo.session_hash (inspect_lock path w') = None.
Proof.
  intros Hrun. split; [reflexivity|]. split; [exact Hrun|].
  rewrite try_acquire_lock_loop in Hrun. simpl in Hrun.
  destruct (acquire_loop_spec path delay force None (utc_isoformat (now w)) retries w)
    as (b & w2 & evs & Hloop & _ & _ & Hb).
  rewrite Hloop in Hrun. injection Hrun as -> ->.
  destruct Hb as (evs0 & _ & _ & _ & Hf).
  split; [eexists; split; [exact Hf | reflexivity]|].
  erewrite inspect_lock_content; [|exact Hf|].
  2:{ simpl. unfold decode_text. simpl. now rewrite utf8_dec_enc. }
  pose proof (lock_parse_no_session (self_pid w) (utc_isoformat (now w))) as Hp.
  destruct (lock_parse _); [exact Hp | reflexivity].
Qed.

(* =================================================================== *)
(** * The iterations of [try_acquire_lock]                             *)
(* =================================================================== *)

(** No other process creates the lock file in the window of the next
    exclusive create. *)
Definition no_racer (w : world) : Prop := hd None (racers w) = None.


(* =================================================================== *)
(** * The write session                                                *)
(* =================================================================== *)

(** The message of the [RuntimeError] of [AtomicWriter.__enter__]. *)
Definition lock_unavailable (path : string) : exn :=
  RuntimeError ("Error: Lock already held or persistent: '" +:+ path +:+ "'").

(** C5.  When [try_acquire_lock] returns [False] for a session that does not
    simulate, [__enter__] raises the lock-unavailable error ([__exit__] is
    not run), and nothing is left behind: the session created no lock file
    (all it did was to sleep and to remove lock files it found), it opened
    no temporary file, and the target, like every file other than the lock
    file, is as it was. *)
Theorem open_without_lock_leaves_nothing
    rand path retries delay session force encoding w w' :
  let tmpfile := Paths.get_tmp_path rand path in
  let lp := Paths.get_lock_path path in
  let self := AtomicWriter.mk path tmpfile retries delay false session force encoding in
  try_acquire_lock path retries delay session force w = (Ok false, w') ->
  AtomicWriter_enter self w = (Raise (lock_unavailable path), w')
  /\ (forall b, AtomicWriter_session self b w = (Raise (lock_unavailable path), w'))
  /\ (exists evs, trace w' = trace w ++ evs
        /\ Forall (waiting lp delay) evs /\ attempts evs = retries)
  /\ fs w' !! tmpfile = fs w !! tmpfile
  /\ fs w' !! path = fs w !! path
  /\ forall p, p <> lp -> fs w' !! p = fs w !! p.
Proof.
  intros tmpfile lp self Hacq.
  assert (Henter : AtomicWriter_enter self w = (Raise (lock_unavailable path), w')).
  { unfold AtomicWriter_enter. simpl. now rewrite Hacq. }
  split; [exact Henter|].
  split; [intros b; unfold AtomicWriter_session; simpl; now rewrite Henter|].
  rewrite try_acquire_lock_loop in Hacq.
  destruct (acquire_loop_spec path delay force (session_to_hash session)
              (utc_isoformat (now w)) retries w)
    as (b & w2 & evs & Hloop & Hsame & Ht & Hb).
  rewrite Hloop in Hacq. injection Hacq as -> ->.
  destruct Hb as (Hw & Hn). destruct Hsame as (_ & _ & _ & _ & Hfs).
  split; [exists evs; auto|].
  split; [apply Hfs, tmp_path_ne_lock|].
  split; [apply Hfs; intros H; symmetry in H; now apply lock_path_ne_path in H|].
  exact Hfs.
Qed.

Lemma write_chunks_sink cs w : write_chunks Sink cs w = (Ok tt, w).
Proof.
  induction cs as [|c cs IH]; [reflexivity|].
  cbn [write_chunks]. unfold bind. simpl. exact IH.
Qed.

(** C2, as the code has it.  A session opened with [simulate] set takes no
    lock and releases none: entering hands out the no-op sink, leaving
    always returns normally, and the whole session leaves the world (file
    system, clock, trace) exactly as it was, whatever the block writes.  No
    temporary file is created and nothing is renamed. *)
Theorem simulate_session_touches_nothing
    path tmpfile retries delay session force encoding b w :
  let self := AtomicWriter.mk path tmpfile retries delay true session force encoding in
  AtomicWriter_enter self w = (Ok Sink, w)
  /\ AtomicWriter_exit self w = (Ok tt, w)
  /\ AtomicWriter_session self b w
     = (match fails b with
        | Some tag => Raise (BlockError tag)
        | None => Ok tt
        end, w)
  /\ forall data,
       exists w', write_atomic path data retries delay true session force encoding w
                  = (Ok tt, w')
         /\ fs w' = fs w /\ now w' = now w /\ trace w' = trace w.
Proof.
  intros self. split; [reflexivity|]. split; [reflexivity|]. split.
  - unfold AtomicWriter_session, run_block. simpl.
    rewrite write_chunks_sink. now destruct (fails b).
  - intros data0. unfold write_atomic, AtomicWriter_init, get_tmp_path. simpl.
    destruct (entropy w); simpl; eexists; repeat split.
Qed.

(** The metadata copy is best effort: it never raises, it leaves one event,
    and it changes no file's bytes. *)
Lemma try_copystat_spec src dst w :
  exists w' e, try_copystat src dst w = (Ok tt, w')
    /\ trace w' = trace w ++ [e]
    /\ (e = StatCopied src dst \/ e = Printed "Error: Failed to copy metadata")
    /\ (forall p, data <$> fs w' !! p = data <$> fs w !! p)
    /\ now w' = now w
    /\ (forall p, p <> dst -> fs w' !! p = fs w !! p).
Proof.
  unfold try_copystat. simpl.
  destruct (fs w !! src) as [s|] eqn:Es; [destruct (fs w !! dst) as [d|] eqn:Ed|].
  - destruct (bool_decide (dst ∈ stat_denied w)); simpl.
    + eexists _, _. repeat split; auto.
    + eexists _, _. repeat split; auto.
      * intros p. simpl. destruct (decide (p = dst)) as [->|Hne].
        -- now rewrite lookup_insert_eq, Ed.
        -- now rewrite lookup_insert_ne by congruence.
      * intros p Hne. simpl. now rewrite lookup_insert_ne by congruence.
  - eexists _, _. repeat split; auto.
  - eexists _, _. repeat split; auto.
Qed.

(** Running [try: body finally: cleanup] when the cleanup returns. *)
Lemma try_finally_run {A} (body : M A) (cleanup : M unit) w r w1 w2 :
  body w = (r, w1) -> cleanup w1 = (Ok tt, w2) ->
  try_finally body cleanup w = (r, w2).
Proof. intros Hb Hc. simpl. rewrite Hb, Hc. now destruct r. Qed.

(** The world after [force_release_lock]. *)
Definition released (lp : string) (w : world) : world :=
  match fs w !! lp with
  | Some _ => removed lp w
  | None => w
  end.

Lemma force_release_lock_run path w :
  force_release_lock path w = (Ok tt, released (Paths.get_lock_path path) w).
Proof.
  unfold force_release_lock, released. simpl.
  destruct (fs w !! Paths.get_lock_path path) as [f|] eqn:E.
  - rewrite (exists_Some _ _ _ E). simpl. now rewrite E.
  - now rewrite (exists_None _ _ E).
Qed.

Lemma released_lock lp w : fs (released lp w) !! lp = None.
Proof.
  unfold released. destruct (fs w !! lp) eqn:E; [|exact E].
  simpl. apply lookup_delete_eq.
Qed.

Lemma released_other lp w p : p <> lp -> fs (released lp w) !! p = fs w !! p.
Proof.
  intros Hp. unfold released. destruct (fs w !! lp); [|reflexivity].
  simpl. now apply lookup_delete_ne.
Qed.

Lemma released_trace lp w :
  trace (released lp w)
  = trace w ++ (if OS.exists_ lp w then [Removed lp] else []).
Proof.
  unfold released. destruct (fs w !! lp) eqn:E.
  - now rewrite (exists_Some _ _ _ E).
  - rewrite (exists_None _ _ E). now rewrite app_nil_r.
Qed.

Lemma released_now lp w : now (released lp w) = now w.
Proof. unfold released. now destruct (fs w !! lp). Qed.

(** The [try] part of [AtomicWriter.__exit__], when the temporary file
    exists: it copies the metadata of the target, if there is one, and
    renames the temporary file onto the target. *)
Lemma commit_run path tmpfile w ft :
  tmpfile <> path -> fs w !! tmpfile = Some ft ->
  exists w2 ft' evs,
    (e <- gets (OS.exists_ path) ;;
     (if e then try_copystat path tmpfile else ret tt) ;;
     OS.replace tmpfile path) w = (Ok tt, w2)
    /\ data ft' = data ft
    /\ fs w2 !! path = Some ft'
    /\ fs w2 !! tmpfile = None
    /\ (forall p, p <> path -> p <> tmpfile -> fs w2 !! p = fs w !! p)
    /\ now w2 = now w
    /\ trace w2 = trace w ++ evs ++ [Replaced tmpfile path].
Proof.
  intros Hne Htmp.
  assert (Hcopy : exists w1 ft' evs,
    (if OS.exists_ path w then try_copystat path tmpfile else ret tt) w = (Ok tt, w1)
    /\ data ft' = data ft /\ fs w1 !! tmpfile = Some ft'
    /\ (forall p, p <> tmpfile -> fs w1 !! p = fs w !! p)
    /\ now w1 = now w /\ trace w1 = trace w ++ evs).
  { destruct (OS.exists_ path w).
    - destruct (try_copystat_spec path tmpfile w)
        as (w1 & e & H1 & H2 & _ & H4 & H5 & H6).
      specialize (H4 tmpfile). rewrite Htmp in H4.
      destruct (fs w1 !! tmpfile) as [ft'|] eqn:E1; [|discriminate H4].
      simpl in H4. injection H4 as H4.
      exists w1, ft', [e]. auto 7.
    - exists w, ft, []. rewrite app_nil_r. auto 7. }
  destruct Hcopy as (w1 & ft' & evs & Hrun & Hd & Ht & Hfs & Hnow & Htr).
  exists (emit (Replaced tmpfile path)
            (set_fs (fun m => <[path := ft']> (delete tmpfile m)) w1)), ft', evs.
  split.
  { unfold bind at 1. unfold gets. unfold bind at 1. rewrite Hrun.
    simpl. now rewrite Ht. }
  split; [exact Hd|]. simpl.
  split; [apply lookup_insert_eq|].
  split; [now rewrite lookup_insert_ne, lookup_delete_eq by congruence|].
  split.
  { intros p H1 H2. rewrite lookup_insert_ne, lookup_delete_ne by congruence.
    now apply Hfs. }
  split; [exact Hnow|]. now rewrite Htr, <- app_assoc.
Qed.

(** The [finally] part of [AtomicWriter.__exit__], when the temporary file
    is gone: it releases the lock. *)
Lemma cleanup_run path tmpfile w :
  fs w !! tmpfile = None ->
  (force_release_lock path ;;
   e <- gets (OS.exists_ tmpfile) ;;
   if e then OS.remove tmpfile else ret tt) w
  = (Ok tt, released (Paths.get_lock_path path) w).
Proof.
  intros Htmp. unfold bind at 1. rewrite force_release_lock_run.
  assert (H : fs (released (Paths.get_lock_path path) w) !! tmpfile = None).
  { destruct (decide (tmpfile = Paths.get_lock_path path)) as [->|Hn].
    - apply released_lock.
    - now rewrite released_other. }
  simpl. now rewrite (exists_None _ _ H).
Qed.

(** What [AtomicWriter.__exit__] does for a session that does not simulate
    and whose temporary file exists: it renames the temporary file onto the
    target, releases the lock and returns normally. *)
Lemma AtomicWriter_exit_commits self w ft :
  AtomicWriter.simulate self = false ->
  AtomicWriter.tmpfile self <> AtomicWriter.path self ->
  fs w !! AtomicWriter.tmpfile self = Some ft ->
  exists w' evs,
    AtomicWriter_exit self w = (Ok tt, w')
    /\ data <$> fs w' !! AtomicWriter.path self = Some (data ft)
    /\ fs w' !! Paths.get_lock_path (AtomicWriter.path self) = None
    /\ fs w' !! AtomicWriter.tmpfile self = None
    /\ (forall p, p <> AtomicWriter.path self -> p <> AtomicWriter.tmpfile self ->
          p <> Paths.get_lock_path (AtomicWriter.path self) ->
          fs w' !! p = fs w !! p)
    /\ now w' = now w
    /\ trace w' = trace w ++ evs
    /\ In (Replaced (AtomicWriter.tmpfile self) (AtomicWriter.path self)) evs.
Proof.
  destruct self as [path tmpfile retries delay sim session force encoding].
  cbn [AtomicWriter.simulate AtomicWriter.path AtomicWriter.tmpfile].
  intros -> Hne Htmp.
  assert (Hlp : path <> Paths.get_lock_path path).
  { intros H. symmetry in H. revert H. apply lock_path_ne_path. }
  set (lp := Paths.get_lock_path path) in *.
  destruct (commit_run path tmpfile w ft Hne Htmp)
    as (w2 & ft' & evs & Hrun & Hd & Hp & Ht & Hfs & Hnow & Htr).
  exists (released lp w2),
    ((evs ++ [Replaced tmpfile path]) ++ (if OS.exists_ lp w2 then [Removed lp] else [])).
  split.
  { unfold AtomicWriter_exit.
    cbn [AtomicWriter.simulate AtomicWriter.path AtomicWriter.tmpfile negb].
    eapply try_finally_run; [exact Hrun|]. now apply cleanup_run. }
  split; [rewrite released_other, Hp by exact Hlp; simpl; now rewrite Hd|].
  split; [apply released_lock|].
  split.
  { destruct (decide (tmpfile = lp)) as [->|Hn];
      [apply released_lock | now rewrite released_other]. }
  split; [intros p H1 H2 H3; rewrite released_other by exact H3; now apply Hfs|].
  split; [now rewrite released_now|].
  split; [now rewrite released_trace, Htr, <- !app_assoc|].
  apply in_or_app. left. apply in_or_app. right. now left.
Qed.

(* =================================================================== *)
(** * Round trip of the core write and read                            *)
(* =================================================================== *)

Lemma with_Ok_inv {H A} (enter : M H) (exit : M unit) (body : H -> M A) w a w' :
  with_ enter exit body w = (Ok a, w') ->
  exists f wa wb,
    enter w = (Ok f, wa) /\ body f wa = (Ok a, wb) /\ exit wb = (Ok tt, w').
Proof.
  unfold with_, bind, attempt, lift.
  destruct (enter w) as [[f|e] wa]; [|discriminate].
  destruct (body f wa) as [r wb] eqn:Hb.
  destruct (exit wb) as [[[]|e] wc] eqn:He; [|discriminate].
  intros [= -> <-]. exists f, wa, wb. auto.
Qed.

Lemma AtomicWriter_init_spec path retries delay simulate session force encoding w :
  exists rand wu,
    AtomicWriter_init path retries delay simulate session force encoding w
    = (Ok (AtomicWriter.mk path (Paths.get_tmp_path rand path) retries delay
             simulate session force encoding), wu)
    /\ fs wu = fs w /\ live wu = live w /\ now wu = now w /\ trace wu = trace w.
Proof.
  unfold AtomicWriter_init, get_tmp_path. simpl.
  destruct (entropy w) as [|r rs]; simpl; eexists _, _; repeat split.
Qed.

(** Entering a session that does not simulate, when it succeeds, leaves the
    lock taken and the temporary file open and empty. *)
Lemma AtomicWriter_enter_ok self w f wa :
  AtomicWriter.simulate self = false ->
  AtomicWriter_enter self w = (Ok f, wa) ->
  f = TextWriter (AtomicWriter.tmpfile self) (AtomicWriter.encoding self)
  /\ (exists ft, fs wa !! AtomicWriter.tmpfile self = Some ft /\ data ft = [])
  /\ (forall p, p <> Paths.get_lock_path (AtomicWriter.path self) ->
                p <> AtomicWriter.tmpfile self -> fs wa !! p = fs w !! p).
Proof.
  destruct self as [path tmpfile retries delay sim session force encoding].
  simpl. intros ->. unfold AtomicWriter_enter. simpl.
  rewrite try_acquire_lock_loop.
  destruct (acquire_loop_spec path delay force (session_to_hash session)
              (utc_isoformat (now w)) retries w)
    as (b & w2 & evs & Hloop & Hsame & _ & _).
  rewrite Hloop. destruct b; simpl; [|discriminate].
  intros [= <- <-]. split; [reflexivity|]. simpl. split.
  - rewrite lookup_insert_eq. destruct (fs w2 !! tmpfile); eauto.
  - intros p H1 H2. rewrite lookup_insert_ne by congruence.
    now apply Hsame.
Qed.

(** A successful core write leaves the encoded text at the target, and no
    lock. *)
Lemma write_atomic_ok path c retries delay session force encoding w w1 :
  write_atomic path c retries delay false session force encoding w = (Ok tt, w1) ->
  exists bs, Codec.enc encoding c = Some bs
    /\ data <$> fs w1 !! path = Some bs
    /\ fs w1 !! Paths.get_lock_path path = None.
Proof.
  unfold write_atomic. intros Hrun.
  destruct (AtomicWriter_init_spec path retries delay false session force encoding w)
    as (rand & wu & Hinit & _).
  unfold bind at 1 in Hrun. rewrite Hinit in Hrun.
  set (self := AtomicWriter.mk _ _ _ _ _ _ _ _) in Hrun.
  apply with_Ok_inv in Hrun. destruct Hrun as (f & wa & wb & Henter & Hbody & Hexit).
  apply AtomicWriter_enter_ok in Henter; [|reflexivity].
  destruct Henter as (-> & (ft & Hft & Hempty) & _). simpl in Hft, Hbody.
  destruct (Codec.enc encoding c) as [bs|] eqn:Henc; [|discriminate].
  exists bs. split; [reflexivity|].
  simpl in Hbody. injection Hbody as <-.
  destruct (AtomicWriter_exit_commits self
              (set_fs (alter (fun f => File (data f ++ bs) (ctime f) (stat f))
                         (Paths.get_tmp_path rand path)) wa)
              (File (data ft ++ bs) (ctime ft) (stat ft)))
    as (w' & evs & Hexit' & Hdata & Hlock & _); try reflexivity.
  - apply tmp_path_ne_path.
  - simpl. rewrite lookup_alter_eq, Hft. reflexivity.
  - rewrite Hexit in Hexit'. injection Hexit' as <-.
    simpl in Hdata, Hlock. rewrite Hempty in Hdata. auto.
Qed.

(** C7, as the code has it.  For text [c] without carriage returns and an
    encoding that decodes what it encodes: when the core write of [c] to
    [path] (not simulated) succeeds, a core read of [path] with at least one
    attempt returns exactly [c], at once. *)
Theorem write_then_read_round_trip
    path c retries delay session force encoding rretries rdelay require_lock w w1 :
  Codec.lossless encoding ->
  PyStr.contains "013" c = false ->
  (0 < rretries)%nat ->
  write_atomic path c retries delay false session force encoding w = (Ok tt, w1) ->
  read_atomic path rretries rdelay require_lock encoding w1 = (Ok c, w1).
Proof.
  intros Hk Hcr Hr Hw.
  apply write_atomic_ok in Hw. destruct Hw as (bs & Henc & Hdata & Hlock).
  destruct (fs w1 !! path) as [f|] eqn:Ef; [|discriminate].
  simpl in Hdata. injection Hdata as Hdata.
  destruct rretries as [|n]; [lia|].
  unfold read_atomic, AtomicReader_enter. simpl.
  unfold is_locked. rewrite (exists_None _ _ Hlock). rewrite orb_true_r.
  simpl. rewrite Ef. simpl. unfold decode_text. rewrite Hdata, (Hk _ _ Henc).
  rewrite universal_newlines_id; [reflexivity|].
  unfold PyStr.contains in Hcr. now apply negb_false_iff in Hcr.
Qed.

(* =================================================================== *)
(** * Format wrappers                                                  *)
(* =================================================================== *)

Lemma inspect_lock_ext path w w2 :
  fs w2 = fs w -> live w2 = live w -> inspect_lock path w2 = inspect_lock path w.
Proof.
  intros Hfs Hlive.
  unfold inspect_lock, OS.exists_, is_process_alive, OS.pid_exists. simpl.
  rewrite Hfs, Hlive. now destruct (fs w !! Paths.get_lock_path path).
Qed.

(** Mutual exclusion: against the lock of a live owner, and without
    [force], every attempt sleeps and the loop gives up. *)
Lemma acquire_loop_contended path delay h ts n w :
  is_Some (fs w !! Paths.get_lock_path path) ->
  LockInfo.alive (inspect_lock path w) = true ->
  exists w',
    for_range n (acquire_attempt path delay false h ts) (ret false) w = (Ok false, w')
    /\ fs w' = fs w /\ live w' = live w
    /\ now w' = now w + Z.of_nat n * Z.of_N delay
    /\ trace w' = trace w ++ repeat (Slept delay) n.
Proof.
  revert w. induction n as [|n IH]; intros w [f E] Ha.
  - exists w. simpl. rewrite app_nil_r. repeat split. lia.
  - cbn [for_range]. unfold bind at 1.
    rewrite acquire_attempt_cases. cbv zeta. rewrite E, Ha. simpl negb. cbn [orb].
    destruct (IH (slept delay w)) as (w' & Hrun & Hfs & Hl & Hn & Ht).
    + simpl. eauto.
    + rewrite (inspect_lock_ext path w); auto.
    + exists w'. rewrite Hrun. split; [reflexivity|].
      split; [exact Hfs|]. split; [exact Hl|].
      split; [rewrite Hn; simpl now; lia|].
      rewrite Ht. simpl. now rewrite <- app_assoc.
Qed.

(** A write session with the defaults of [write_atomic], not forced, against
    the lock of a live owner: [__enter__] raises, and the block is not run. *)
Lemma session_contended {A} path retries delay session encoding
    (body : handle -> M A) w :
  is_Some (fs w !! Paths.get_lock_path path) ->
  LockInfo.alive (inspect_lock path w) = true ->
  exists w',
    (self <- AtomicWriter_init path retries delay false session false encoding ;;
     with_ (AtomicWriter_enter self) (AtomicWriter_exit self) body) w
    = (Raise (lock_unavailable path), w')
    /\ fs w' = fs w.
Proof.
  intros Hlock Ha.
  destruct (AtomicWriter_init_spec path retries delay false session false encoding w)
    as (rand & wu & Hinit & Hfs & Hlive & _).
  unfold bind at 1. rewrite Hinit.
  destruct (acquire_loop_contended path delay (session_to_hash session)
              (utc_isoformat (now wu)) retries wu) as (w' & Hrun & Hfs' & _).
  - now rewrite Hfs.
  - now rewrite (inspect_lock_ext path w).
  - exists w'. unfold with_, AtomicWriter_enter. simpl.
    rewrite try_acquire_lock_loop, Hrun. simpl.
    split; [reflexivity | congruence].
Qed.

(** The core write, not forced, against the lock of a live owner. *)
Lemma write_atomic_contended path text retries delay session encoding w :
  is_Some (fs w !! Paths.get_lock_path path) ->
  LockInfo.alive (inspect_lock path w) = true ->
  exists w', write_atomic path text retries delay false session false encoding w
             = (Raise (lock_unavailable path), w')
    /\ fs w' = fs w.
Proof. apply session_contended. Qed.

(** The pickle write, when pickling succeeds: it never looks at the lock. *)
Lemma atomic_pickle_write_run path obj bs w :
  pickle_dumps obj = Some bs ->
  exists w', atomic_pickle_write path obj w = (Ok tt, w')
    /\ data <$> fs w' !! path = Some bs
    /\ fs w' !! Paths.get_lock_path path = fs w !! Paths.get_lock_path path
    /\ now w' = now w.
Proof.
  intros Hbs. unfold atomic_pickle_write, get_tmp_path.
  set (lp := Paths.get_lock_path path).
  assert (Hu : exists rand wu, OS.uuid4 w = (Ok rand, wu)
            /\ fs wu = fs w /\ now wu = now w).
  { simpl. destruct (entropy w); eexists _, _; repeat split. }
  destruct Hu as (rand & wu & Hu & Hfs & Hnow).
  unfold bind at 1. unfold bind at 1. rewrite Hu. cbn [ret].
  set (tmp := Paths.get_tmp_path rand path).
  assert (Htp : tmp <> path) by apply tmp_path_ne_path.
  assert (Htl : tmp <> lp) by apply tmp_path_ne_lock.
  assert (Hlp : lp <> path) by apply lock_path_ne_path.
  rewrite Hbs. simpl.
  set (wa := set_fs _ (emit (Opened tmp) _)).
  assert (Hta : exists ft, fs wa !! tmp = Some ft /\ data ft = bs).
  { subst wa. simpl. rewrite lookup_alter_eq, lookup_insert_eq. simpl.
    destruct (fs wu !! tmp); simpl; eauto. }
  destruct Hta as (ft & Hta & Hdata).
  assert (Hla : fs wa !! lp = fs w !! lp).
  { subst wa. simpl.
    rewrite lookup_alter_ne, lookup_insert_ne by congruence. now rewrite Hfs. }
  assert (Hna : now wa = now w) by (subst wa; simpl; exact Hnow).
  clearbody wa.
  destruct (OS.exists_ path wa).
  + destruct (try_copystat_spec path tmp wa)
      as (w1 & e & H1 & _ & _ & H4 & H5 & H6).
    rewrite H1. simpl.
    pose proof (H4 tmp) as Ht1. rewrite Hta in Ht1.
    destruct (fs w1 !! tmp) as [ft1|] eqn:E1; [|discriminate].
    simpl in Ht1. injection Ht1 as Ht1.
    eexists. split; [reflexivity|]. simpl.
    rewrite lookup_insert_eq. simpl.
    rewrite lookup_insert_ne, lookup_delete_ne by congruence.
    rewrite H6 by congruence. repeat split; congruence.
  + simpl. rewrite Hta. eexists. split; [reflexivity|]. simpl.
    rewrite lookup_insert_eq. simpl.
    rewrite lookup_insert_ne, lookup_delete_ne by congruence.
    repeat split; congruence.
Qed.

(** C3 does not hold of the code.  The JSON and YAML wrappers, those of
    ruamel.yaml included, do perform their file access through the core
    write session and the core read, with no locking of their own: under
    the lock of a live owner a dump fails with the lock-unavailable error of
    the core write, the files untouched.  The pickle write does not: it
    stages the bytes in a temporary file of its own and renames it onto the
    target without ever looking at the lock, so it succeeds, and replaces
    the target, whatever the state of the lock; the pickle read does not
    look at the lock either, and does not retry. *)
Theorem format_wrappers_and_the_lock path obj encoding w :
  let lp := Paths.get_lock_path path in
  let core_write text :=
    write_atomic path text DEFAULT_RETRIES DEFAULT_DELAY false None false encoding in
  let core_read := read_atomic path DEFAULT_RETRIES DEFAULT_DELAY false encoding in
  (forall text, json_dumps obj = Some text ->
     atomic_json_dump path obj encoding w = core_write text w)
  /\ (forall text, yaml_safe_dump obj = Some text ->
     atomic_yaml_dump path obj encoding w = core_write text w)
  /\ atomic_json_load path encoding w
     = (text <- core_read ;; of_option (json_loads text)) w
  /\ atomic_yaml_load path encoding w
     = (text <- core_read ;; of_option (yaml_safe_load text)) w
  /\ atomic_yaml_load_ruamel path encoding w
     = (text <- core_read ;; of_option (ruamel_load text)) w
  /\ (is_Some (fs w !! lp) -> LockInfo.alive (inspect_lock path w) = true ->
      (forall text, json_dumps obj = Some text ->
         exists w', atomic_json_dump path obj encoding w
                    = (Raise (lock_unavailable path), w') /\ fs w' = fs w)
      /\ (forall text, yaml_safe_dump obj = Some text ->
         exists w', atomic_yaml_dump path obj encoding w
                    = (Raise (lock_unavailable path), w') /\ fs w' = fs w)
      /\ (exists w', atomic_yaml_dump_ruamel path obj encoding w
                     = (Raise (lock_unavailable path), w') /\ fs w' = fs w))
  /\ (forall bs, pickle_dumps obj = Some bs ->
      exists w', atomic_pickle_write path obj w = (Ok tt, w')
        /\ data <$> fs w' !! path = Some bs
        /\ fs w' !! lp = fs w !! lp
        /\ now w' = now w)
  /\ snd (atomic_pickle_read path w) = w.
Proof.
  intros lp core_write core_read.
  assert (Hj : forall text, json_dumps obj = Some text ->
            atomic_json_dump path obj encoding w = core_write text w).
  { intros text H. unfold atomic_json_dump. unfold bind at 1. now rewrite H. }
  assert (Hy : forall text, yaml_safe_dump obj = Some text ->
            atomic_yaml_dump path obj encoding w = core_write text w).
  { intros text H. unfold atomic_yaml_dump. unfold bind at 1. now rewrite H. }
  split; [exact Hj|]. split; [exact Hy|].
  split; [reflexivity|]. split; [reflexivity|]. split; [reflexivity|].
  split; [|split].
  - intros Hl Ha. split; [|split].
    + intros text H. rewrite (Hj _ H). now apply write_atomic_contended.
    + intros text H. rewrite (Hy _ H). now apply write_atomic_contended.
    + unfold atomic_yaml_dump_ruamel, AtomicWriter_session.
      now apply session_contended.
  - intros bs Hbs. now apply atomic_pickle_write_run.
  - unfold atomic_pickle_read. simpl.
    destruct (fs w !! path) as [f|] eqn:E; simpl; [|reflexivity].
    rewrite E. simpl. now destruct (pickle_loads (data f)).
Qed.

(* =================================================================== *)
(** * A write block that raises                                        *)
(* =================================================================== *)

(** Running [with mgr as f: body(f)] when [__enter__] and [__exit__]
    return. *)
Lemma with_run {H A} (enter : M H) (exit : M unit) (body : H -> M A)
    w f wa r wb w' :
  enter w = (Ok f, wa) -> body f wa = (r, wb) -> exit wb = (Ok tt, w') ->
  with_ enter exit body w = (r, w').
Proof.
  intros He Hb Hx. unfold with_, bind, attempt, lift.
  rewrite He, Hb, Hx. now destruct r.
Qed.

(** What the writes of a block leave in the temporary file: the encoded
    pieces, up to the first one that the encoding refuses. *)
Lemma write_chunks_text tmp k cs w ft :
  fs w !! tmp = Some ft ->
  exists r w' bs,
    write_chunks (TextWriter tmp k) cs w = (r, w')
    /\ fs w' !! tmp = Some (File (data ft ++ bs) (ctime ft) (stat ft))
    /\ (forall p, p <> tmp -> fs w' !! p = fs w !! p)
    /\ trace w' = trace w /\ now w' = now w
    /\ (r = Ok tt \/ r = Raise UnicodeEncodeError)
    /\ (forall bss, Forall2 (fun c x => Codec.enc k c = Some x) cs bss ->
          r = Ok tt /\ bs = concat bss).
Proof.
  revert w ft. induction cs as [|c cs IH]; intros w ft Hft.
  - exists (Ok tt), w, []. split; [reflexivity|].
    split; [rewrite app_nil_r; now destruct ft|].
    split; [reflexivity|]. split; [reflexivity|]. split; [reflexivity|].
    split; [now left|]. intros bss Hall. inversion Hall. now split.
  - cbn [write_chunks handle_write]. unfold bind at 1, write_text.
    destruct (Codec.enc k c) as [x|] eqn:Hx.
    + set (w1 := set_fs (alter (fun f => File (data f ++ x) (ctime f) (stat f)) tmp) w).
      assert (Hrun : OS.append tmp x w = (Ok tt, w1)) by reflexivity.
      rewrite Hrun.
      assert (H1 : fs w1 !! tmp = Some (File (data ft ++ x) (ctime ft) (stat ft))).
      { subst w1. simpl. now rewrite lookup_alter_eq, Hft. }
      destruct (IH w1 _ H1) as (r & w' & bs & Hr & Hf & Hfr & Ht & Hn & Hres & Hall).
      exists r, w', (x ++ bs). split; [exact Hr|].
      split; [rewrite Hf; simpl; now rewrite <- app_assoc|].
      split.
      { intros p Hp. rewrite (Hfr p Hp). subst w1. simpl.
        now rewrite lookup_alter_ne by congruence. }
      split; [exact Ht|]. split; [exact Hn|]. split; [exact Hres|].
      intros bss H. inversion H as [|c' x' cs' bss' Hc Ht' ]; subst.
      rewrite Hx in Hc. injection Hc as <-.
      destruct (Hall _ Ht') as [-> ->]. now split.
    + exists (Raise UnicodeEncodeError), w, [].
      split; [reflexivity|].
      split; [rewrite app_nil_r; now destruct ft|].
      split; [reflexivity|]. split; [reflexivity|]. split; [reflexivity|].
      split; [now right|]. intros bss H.
      inversion H as [|c' x' cs' bss' Hc Ht' ]; subst. congruence.
Qed.

(** C1 does not hold of the code.  When the block of a session that does
    not simulate raises, [__exit__] still renames the temporary file onto
    the target: the exception goes on to the caller, and the target now
    holds just what the block had written before it raised; the lock is
    released and the temporary file is gone (renamed, not deleted). *)
Theorem failed_block_is_committed
    rand path retries delay session force encoding b tag w f wa :
  let tmpfile := Paths.get_tmp_path rand path in
  let lp := Paths.get_lock_path path in
  let self := AtomicWriter.mk path tmpfile retries delay false session force encoding in
  AtomicWriter_enter self w = (Ok f, wa) ->
  fails b = Some tag ->
  exists e w' bs evs,
    AtomicWriter_session self b w = (Raise e, w')
    /\ (e = BlockError tag \/ e = UnicodeEncodeError)
    /\ trace w' = trace wa ++ evs
    /\ In (Replaced tmpfile path) evs
    /\ data <$> fs w' !! path = Some bs
    /\ fs w' !! lp = None
    /\ fs w' !! tmpfile = None
    /\ (forall bss,
          Forall2 (fun c x => Codec.enc encoding c = Some x) (chunks b) bss ->
          e = BlockError tag /\ bs = concat bss).
Proof.
  intros tmpfile lp self Henter Hfails.
  destruct (AtomicWriter_enter_ok self w f wa eq_refl Henter)
    as (Hf & (ft & Hft & Hempty) & _).
  cbn [self AtomicWriter.tmpfile AtomicWriter.encoding AtomicWriter.path] in Hf, Hft.
  fold tmpfile in Hf, Hft. subst f.
  destruct (write_chunks_text tmpfile encoding (chunks b) wa ft Hft)
    as (r & wb & bs & Hr & Hfb & _ & Htb & _ & Hres & Hall).
  rewrite Hempty in Hfb. simpl in Hfb.
  destruct (AtomicWriter_exit_commits self wb _ eq_refl
              (tmp_path_ne_path rand path) Hfb)
    as (w' & evs & Hexit & Hdata & Hlock & Htmp & _ & _ & Htr & Hin).
  cbn [self AtomicWriter.tmpfile AtomicWriter.path] in Hdata, Hlock, Htmp, Hin.
  simpl in Hdata.
  assert (Hblock : exists e, run_block b (TextWriter tmpfile encoding) wa = (Raise e, wb)
            /\ (e = BlockError tag \/ e = UnicodeEncodeError)
            /\ (r = Ok tt -> e = BlockError tag)).
  { unfold run_block, bind. rewrite Hr, Hfails.
    destruct Hres as [-> | ->].
    - exists (BlockError tag). auto.
    - exists UnicodeEncodeError. split; [reflexivity|]. split; [now right|].
      discriminate. }
  destruct Hblock as (e & Hblock & He & Hok).
  exists e, w', bs, evs.
  split; [exact (with_run _ _ _ _ _ _ _ _ _ Henter Hblock Hexit)|].
  split; [exact He|]. split; [now rewrite Htr, Htb|]. split; [exact Hin|].
  split; [exact Hdata|]. split; [exact Hlock|]. split; [exact Htmp|].
  intros bss H. destruct (Hall bss H) as [-> ->]. auto.
Qed.

(* =================================================================== *)
(** * Reading back what [str] printed                                  *)
(* =================================================================== *)

Lemma isdecimal_not_space c : PyStr.isdecimal c = true -> PyStr.isspace c = false.
Proof. destruct c as [[] [] [] [] [] [] [] []]; vm_compute; congruence. Qed.

Lemma isdecimal_isdigit c : PyStr.isdecimal c = true -> PyStr.isdigit_char c = true.
Proof. unfold PyStr.isdigit_char. now intros ->. Qed.

Lemma code_digit_char d : (d < 10)%N -> (PyStr.code (PyStr.digit_char d) - 48 = d)%N.
Proof.
  intros H. unfold PyStr.code, PyStr.digit_char.
  rewrite N_ascii_embedding by lia. lia.
Qed.

Lemma digits_value_app a s t :
  PyStr.digits_value a (s +:+ t) = PyStr.digits_value (PyStr.digits_value a s) t.
Proof. revert a. induction s as [|c r IH]; intros a; simpl; [reflexivity | apply IH]. Qed.

(** Text without white space is its own [strip]. *)
Lemma lstrip_id s :
  PyStr.all (fun c => negb (PyStr.isspace c)) s = true -> PyStr.lstrip s = s.
Proof.
  destruct s as [|c r]; simpl; [reflexivity|].
  rewrite andb_true_iff, negb_true_iff. now intros [-> _].
Qed.

Lemma rstrip_id s :
  PyStr.all (fun c => negb (PyStr.isspace c)) s = true -> PyStr.rstrip s = s.
Proof.
  induction s as [|c r IH]; simpl; [reflexivity|].
  rewrite andb_true_iff, negb_true_iff. intros [Hc Hr].
  now rewrite (IH Hr), Hc.
Qed.

Lemma strip_id s :
  PyStr.all (fun c => negb (PyStr.isspace c)) s = true -> PyStr.strip s = s.
Proof. intros H. unfold PyStr.strip. now rewrite (lstrip_id _ H), (rstrip_id _ H). Qed.

Lemma int_digits_decimal s :
  PyStr.all PyStr.isdecimal s = true -> PyStr.int_digits true s = Some s.
Proof.
  induction s as [|c r IH]; simpl; [reflexivity|].
  rewrite andb_true_iff. intros [-> Hr]. now rewrite (IH Hr).
Qed.

Lemma int_digits_decimal_ne b s :
  PyStr.all PyStr.isdecimal s = true -> PyStr.is_empty s = false ->
  PyStr.int_digits b s = Some s.
Proof.
  destruct s as [|c r]; simpl; [discriminate|].
  rewrite andb_true_iff. intros [-> Hr] _. now rewrite (int_digits_decimal _ Hr).
Qed.

(** [int] of a non-empty string of decimal digits. *)
Lemma int_decimal s :
  PyStr.all PyStr.isdecimal s = true -> PyStr.is_empty s = false ->
  (String.length s <= PyStr.INT_MAX_STR_DIGITS)%nat ->
  PyStr.int s = Some (Z.of_N (PyStr.digits_value 0 s)).
Proof.
  intros Hd Hne Hlen. unfold PyStr.int.
  rewrite strip_id by (eapply all_impl; [|exact Hd]; intros c Hc;
                       now rewrite (isdecimal_not_space _ Hc)).
  assert (Hbody : match s with
                  | String "-" r => (true, r)
                  | String "+" r => (false, r)
                  | _ => (false, s)
                  end = (false, s)).
  { destruct s as [|c r]; [reflexivity|]. simpl in Hd.
    apply andb_true_iff in Hd as [Hc _].
    destruct c as [[] [] [] [] [] [] [] []]; try reflexivity;
      vm_compute in Hc; discriminate Hc. }
  rewrite Hbody. rewrite (int_digits_decimal_ne _ _ Hd Hne). simpl.
  destruct (Nat.ltb_spec PyStr.INT_MAX_STR_DIGITS (String.length s)); [lia|].
  reflexivity.
Qed.

(** The digits [str] prints: decimal, non-empty, with the number as their
    value, and no more of them than the number needs. *)
Lemma decimal_digits_spec fuel n acc :
  (0 < fuel)%nat -> (n < 10 ^ N.of_nat fuel)%N ->
  exists d, PyStr.decimal_digits fuel n acc = d +:+ acc
    /\ PyStr.all PyStr.isdecimal d = true
    /\ PyStr.is_empty d = false
    /\ (forall a, PyStr.digits_value a d
                  = a * 10 ^ N.of_nat (String.length d) + n)%N
    /\ (n = 0%N /\ String.length d = 1%nat
        \/ (10 ^ N.of_nat (String.length d - 1) <= n)%N).
Proof.
  revert n acc. induction fuel as [|f IH]; intros n acc Hf Hn; [lia|].
  cbn [PyStr.decimal_digits]. cbv zeta.
  destruct (N.ltb_spec n 10) as [Hlt|Hge].
  + exists (String (PyStr.digit_char (n mod 10)) EmptyString).
    rewrite N.mod_small by exact Hlt.
    split; [reflexivity|].
    split; [simpl; now rewrite digit_char_decimal|].
    split; [reflexivity|].
    split.
    { intros a. simpl. rewrite code_digit_char by exact Hlt. lia. }
    simpl. lia.
  + assert (Hdiv : (n / 10 < 10 ^ N.of_nat f)%N).
    { apply N.Div0.div_lt_upper_bound.
      rewrite Nat2N.inj_succ, N.pow_succ_r' in Hn. exact Hn. }
    assert (Hf' : (0 < f)%nat).
    { destruct f; [simpl in Hn; lia | lia]. }
    destruct (IH (n / 10)%N (String (PyStr.digit_char (n mod 10)) acc) Hf' Hdiv)
      as (d' & Hrun & Hall & Hne & Hval & Hlow).
    assert (Hm : (n mod 10 < 10)%N) by (apply N.mod_lt; lia).
    assert (Hlen : (1 <= String.length d')%nat).
    { destruct d'; [discriminate Hne | simpl; lia]. }
    exists (d' +:+ String (PyStr.digit_char (n mod 10)) EmptyString).
    split; [rewrite Hrun, app_assoc_str; reflexivity|].
    split; [rewrite all_app, Hall; simpl; now rewrite digit_char_decimal|].
    split; [destruct d'; [discriminate Hne | reflexivity]|].
    assert (Hl : String.length (d' +:+ String (PyStr.digit_char (n mod 10)) EmptyString)
                 = S (String.length d')).
    { rewrite string_length_app. simpl. lia. }
    rewrite Hl. split.
    { intros a. rewrite digits_value_app, Hval. simpl.
      rewrite code_digit_char by exact Hm.
      rewrite Nat2N.inj_succ, N.pow_succ_r'.
      pose proof (N.div_mod n 10 ltac:(lia)) as Hdm. nia. }
    right. replace (S (String.length d') - 1)%nat with (String.length d') by lia.
    pose proof (N.div_mod n 10 ltac:(lia)) as Hdm.
    destruct Hlow as [[H0 _]|Hlow].
    * assert (n / 10 <> 0)%N.
      { intros Hz. rewrite Hz in Hdm. lia. }
      contradiction.
    * replace (String.length d') with (S (String.length d' - 1)) by lia.
      rewrite Nat2N.inj_succ, N.pow_succ_r'.
      etransitivity; [apply N.mul_le_mono_l, Hlow | apply N.Div0.mul_div_le].
Qed.

Lemma str_of_N_fuel n : (n < 10 ^ N.of_nat (S (N.to_nat (N.log2 n))))%N.
Proof.
  rewrite Nat2N.inj_succ, N2Nat.id.
  destruct (N.eq_dec n 0%N) as [->|Hn]; [reflexivity|].
  destruct (N.log2_spec n ltac:(lia)) as [_ Hlt].
  eapply N.lt_le_trans; [exact Hlt|].
  apply N.pow_le_mono_l. lia.
Qed.

(** [int(str(n)) == n], for a natural number within the digit limit of
    [int]; and [str(n).isdigit()]. *)
Lemma int_str_of_N n :
  (n < 10 ^ 4300)%N ->
  PyStr.int (PyStr.str_of_N n) = Some (Z.of_N n)
  /\ PyStr.isdigit (PyStr.str_of_N n) = true
  /\ PyStr.all PyStr.isdecimal (PyStr.str_of_N n) = true.
Proof.
  intros Hn. unfold PyStr.str_of_N.
  destruct (decimal_digits_spec (S (N.to_nat (N.log2 n))) n EmptyString
              ltac:(lia) (str_of_N_fuel n))
    as (d & Hrun & Hall & Hne & Hval & Hlow).
  assert (Hd : d +:+ EmptyString = d).
  { clear. induction d as [|c r IH]; simpl; [reflexivity | now rewrite IH]. }
  rewrite Hrun, Hd.
  assert (Hlen : (String.length d <= PyStr.INT_MAX_STR_DIGITS)%nat).
  { unfold PyStr.INT_MAX_STR_DIGITS.
    destruct Hlow as [[_ ->]|Hlow]; [lia|].
    assert (H : (N.of_nat (String.length d - 1) < 4300)%N).
    { apply (N.pow_lt_mono_r_iff 10%N); [lia|]. eapply N.le_lt_trans; eauto. }
    lia. }
  split.
  { rewrite (int_decimal d Hall Hne Hlen), Hval. reflexivity. }
  split; [|exact Hall].
  unfold PyStr.isdigit. rewrite Hne. simpl.
  eapply all_impl; [apply isdecimal_isdigit | exact Hall].
Qed.

(** A process id that [lock_parse] reads back. *)
Definition pid_ok (pid : Z) : Prop := 0 <= pid < 10 ^ 4300.

Lemma int_str_of_int pid :
  pid_ok pid ->
  PyStr.int (PyStr.str_of_int pid) = Some pid
  /\ PyStr.isdigit (PyStr.str_of_int pid) = true
  /\ PyStr.all PyStr.isdecimal (PyStr.str_of_int pid) = true.
Proof.
  intros [H0 H1]. unfold PyStr.str_of_int.
  destruct (Z.ltb_spec pid 0) as [Hneg|_]; [now apply Z.lt_nge in Hneg|].
  assert (Hn : (Z.to_N pid < 10 ^ 4300)%N).
  { apply N2Z.inj_lt. rewrite Z2N.id by exact H0.
    rewrite N2Z.inj_pow. exact H1. }
  destruct (int_str_of_N _ Hn) as (Hi & Hd & Ha).
  rewrite Hi, Z2N.id by exact H0. auto.
Qed.

(* =================================================================== *)
(** * The lock record, written and read back                           *)
(* =================================================================== *)

Lemma rstrip_all p s : PyStr.all p s = true -> PyStr.all p (PyStr.rstrip s) = true.
Proof.
  induction s as [|c r IH]; simpl; [reflexivity|].
  rewrite andb_true_iff. intros [Hc Hr].
  destruct (PyStr.isspace c && PyStr.is_empty (PyStr.rstrip r)); [reflexivity|].
  simpl. now rewrite Hc, (IH Hr).
Qed.

Lemma split_no_sep sep s :
  PyStr.all (is_not sep) s = true -> PyStr.split sep s = [s].
Proof.
  induction s as [|c r IH]; simpl; [reflexivity|].
  unfold is_not at 1. rewrite andb_true_iff, negb_true_iff.
  intros [-> Hr]. now rewrite (IH Hr).
Qed.

Lemma decimal_not_sep s :
  PyStr.all PyStr.isdecimal s = true -> PyStr.all (is_not LOCK_SEPARATOR) s = true.
Proof.
  apply all_impl. intros c Hc. apply int_char_not_sep.
  unfold int_char. now rewrite Hc.
Qed.

Lemma decimal_no_space s :
  PyStr.all PyStr.isdecimal s = true ->
  PyStr.all (fun c => negb (PyStr.isspace c)) s = true.
Proof.
  apply all_impl. intros c Hc. now rewrite (isdecimal_not_space _ Hc).
Qed.

(** Text without the separator of the lock record. *)
Definition no_sep (s : string) : Prop := PyStr.all (is_not LOCK_SEPARATOR) s = true.

(** Text without carriage returns. *)
Definition no_cr (s : string) : Prop := PyStr.all (is_not "013") s = true.

Lemma int_char_not_space c : int_char c = true -> PyStr.isspace c = false.
Proof. destruct c as [[] [] [] [] [] [] [] []]; vm_compute; congruence. Qed.

(** The fields of a rendered record. *)
Lemma fields_render pid h ts :
  no_sep (or_empty h) -> no_sep ts ->
  fields (lock_render pid h ts)
  = [PyStr.str_of_int pid; or_empty h; PyStr.rstrip ts].
Proof.
  intros Hh Hts. pose proof (str_of_int_chars pid) as Hchars.
  unfold fields, lock_render.
  change (String LOCK_SEPARATOR (or_empty h) +:+ String LOCK_SEPARATOR ts)
    with (String LOCK_SEPARATOR (or_empty h +:+ String LOCK_SEPARATOR ts)).
  rewrite strip_app_sep by reflexivity.
  rewrite rstrip_app_sep by reflexivity.
  rewrite lstrip_id.
  2:{ eapply all_impl; [|exact Hchars]. intros c Hc.
      now rewrite (int_char_not_space _ Hc). }
  rewrite split_app_sep
    by (eapply all_impl; [apply int_char_not_sep | exact Hchars]).
  rewrite split_app_sep by exact Hh.
  rewrite split_no_sep by now apply rstrip_all.
  reflexivity.
Qed.

(** [lock_parse] of a rendered record with a process id that can be read
    back. *)
Lemma lock_parse_rendered pid h ts :
  pid_ok pid -> no_sep (or_empty h) -> no_sep ts ->
  lock_parse (lock_render pid h ts)
  = Ok (LockDict (Some pid) (h ≫= or_None) (Some (PyStr.rstrip ts))).
Proof.
  intros Hpid Hh Hts. destruct (int_str_of_int pid Hpid) as (Hint & Hdig & _).
  unfold lock_parse.
  change (PyStr.split LOCK_SEPARATOR (PyStr.strip (lock_render pid h ts)))
    with (fields (lock_render pid h ts)).
  rewrite (fields_render pid h ts Hh Hts), Hdig, Hint.
  now destruct h.
Qed.

Lemma render_no_cr pid h ts :
  no_cr (or_empty h) -> no_cr ts -> no_cr (lock_render pid h ts).
Proof.
  intros Hh Hts. unfold no_cr, lock_render.
  change (String LOCK_SEPARATOR (or_empty h) +:+ String LOCK_SEPARATOR ts)
    with (String LOCK_SEPARATOR (or_empty h +:+ String LOCK_SEPARATOR ts)).
  rewrite all_app.
  rewrite (all_impl _ _ _ int_char_not_cr (str_of_int_chars pid)).
  simpl. rewrite all_app, Hh. simpl. exact Hts.
Qed.

(** [inspect_lock] on a lock file that holds a rendered record. *)
Lemma inspect_lock_rendered path w f pid h ts :
  fs w !! Paths.get_lock_path path = Some f ->
  data f = Codec.utf8_enc (lock_render pid h ts) ->
  pid_ok pid -> no_sep (or_empty h) -> no_sep ts ->
  no_cr (or_empty h) -> no_cr ts ->
  inspect_lock path w
  = LockInfo.mk (Paths.get_lock_path path) true (Some pid)
      (negb (pid =? 0) && is_process_alive pid w)
      (h ≫= or_None) (Some (PyStr.rstrip ts)) false.
Proof.
  intros Hf Hdata Hpid Hh Hts Hh' Hts'.
  rewrite (inspect_lock_content path w f (lock_render pid h ts) Hf).
  - rewrite (lock_parse_rendered pid h ts Hpid Hh Hts). simpl.
    now destruct (pid =? 0).
  - unfold decode_text. rewrite Hdata. simpl. rewrite utf8_dec_enc.
    now rewrite universal_newlines_id by now apply render_no_cr.
Qed.

(* =================================================================== *)
(** * Runs of the acquire loop                                         *)
(* =================================================================== *)

(** The lock is free and nobody else creates it: the first attempt takes
    it. *)
Lemma acquire_free path n delay session force w :
  fs w !! Paths.get_lock_path path = None -> no_racer w ->
  try_acquire_lock path (S n) delay session force w
  = (Ok true,
     locked_by_self (Paths.get_lock_path path)
       (lock_render (self_pid w) (session_to_hash session) (utc_isoformat (now w))) w).
Proof.
  intros Hfree Hr. rewrite try_acquire_lock_loop. cbn [for_range]. unfold bind at 1.
  rewrite acquire_attempt_cases. cbv zeta. rewrite Hfree. unfold no_racer in Hr.
  destruct (racers w) as [|[x|] rs]; [reflexivity | discriminate Hr | reflexivity].
Qed.

(** The lock is there, and its owner is dead or [force] is set: the first
    attempt removes it. *)
Lemma acquire_removes path delay force h ts w :
  is_Some (fs w !! Paths.get_lock_path path) ->
  LockInfo.alive (inspect_lock path w) = false \/ force = true ->
  acquire_attempt path delay force h ts w
  = (Ok Next, removed (Paths.get_lock_path path) w).
Proof.
  intros [f Hf] Hdead.
  assert (Hb : negb (LockInfo.alive (inspect_lock path w)) || force = true).
  { destruct Hdead as [-> | ->]; [reflexivity | apply orb_true_r]. }
  rewrite acquire_attempt_cases. cbv zeta. now rewrite Hf, Hb.
Qed.

(** ... and the second attempt takes the lock, when nobody else creates it
    in between. *)
Lemma acquire_reclaims path n delay session force w :
  let lp := Paths.get_lock_path path in
  is_Some (fs w !! lp) ->
  LockInfo.alive (inspect_lock path w) = false \/ force = true ->
  no_racer w ->
  try_acquire_lock path (S (S n)) delay session force w
  = (Ok true,
     locked_by_self lp
       (lock_render (self_pid w) (session_to_hash session) (utc_isoformat (now w)))
       (removed lp w)).
Proof.
  intros lp Hlock Hdead Hr.
  rewrite try_acquire_lock_loop. cbn [for_range]. unfold bind at 1.
  rewrite (acquire_removes path delay force _ _ w Hlock Hdead). fold lp.
  unfold bind at 1. rewrite acquire_attempt_cases. cbv zeta. fold lp.
  assert (Hg : fs (removed lp w) !! lp = None) by (simpl; apply lookup_delete_eq).
  rewrite Hg. unfold no_racer in Hr.
  change (racers (removed lp w)) with (racers w).
  destruct (racers w) as [|[bs|] rs]; [reflexivity | discriminate Hr | reflexivity].
Qed.

Lemma take_all p n s : PyStr.all p s = true -> PyStr.all p (PyStr.take n s) = true.
Proof.
  revert s. induction n as [|n IH]; intros [|c r]; simpl; try reflexivity.
  rewrite !andb_true_iff. intros [Hc Hr]. auto.
Qed.

(** A digest function whose values look like hexadecimal digests: not
    empty, and free of the separator and of carriage returns. *)
Definition digest_like (sha : list byte -> string) : Prop :=
  forall bs, PyStr.is_empty (sha bs) = false /\ no_sep (sha bs) /\ no_cr (sha bs).

(** A clock rendering whose values look like ISO time stamps: free of the
    separator, of carriage returns and of white space. *)
Definition timestamp_like (iso : Z -> string) : Prop :=
  forall t, no_sep (iso t) /\ no_cr (iso t)
            /\ PyStr.all (fun c => negb (PyStr.isspace c)) (iso t) = true.

Lemma session_hash_clean session :
  digest_like sha256_hexdigest ->
  let h := session_to_hash session in
  no_sep (or_empty h) /\ no_cr (or_empty h) /\ h ≫= or_None = h.
Proof.
  intros Hsha h. subst h. unfold session_to_hash.
  destruct session as [s|]; [|repeat split].
  destruct (PyStr.is_empty s); [repeat split|].
  destruct (Hsha (Codec.utf8_enc s)) as (Hne & Hsep & Hcr).
  split; [now apply take_all|]. split; [now apply take_all|].
  simpl. unfold or_None.
  destruct (sha256_hexdigest (Codec.utf8_enc s)); [discriminate Hne | reflexivity].
Qed.

(** [inspect_lock] on the lock this process has just written. *)
Lemma inspect_own_lock path session ts w w' :
  digest_like sha256_hexdigest ->
  no_sep ts -> no_cr ts -> PyStr.all (fun c => negb (PyStr.isspace c)) ts = true ->
  pid_ok (self_pid w) ->
  w' = locked_by_self (Paths.get_lock_path path)
         (lock_render (self_pid w) (session_to_hash session) ts) w ->
  inspect_lock path w'
  = LockInfo.mk (Paths.get_lock_path path) true (Some (self_pid w))
      (negb (self_pid w =? 0) && bool_decide (self_pid w ∈ live w))
      (session_to_hash session) (Some ts) false.
Proof.
  intros Hsha Hts Hts' Hsp Hpid ->.
  destruct (session_hash_clean session Hsha) as (Hh & Hh' & Hid).
  rewrite (inspect_lock_rendered path _
             (File (Codec.utf8_enc (lock_render (self_pid w) (session_to_hash session) ts))
                   (now w) OS.DEFAULT_STAT)
             (self_pid w) (session_to_hash session) ts);
    try assumption; try reflexivity.
  - rewrite Hid, (rstrip_id _ Hsp).
    unfold is_process_alive, OS.pid_exists. simpl.
    now destruct (raced_on_same (Paths.get_lock_path path) w) as (-> & _).
  - simpl. apply lookup_insert_eq.
Qed.

(* =================================================================== *)
(** * Further properties of the lock record and of the lock            *)
(* =================================================================== *)

(** X1.  [lock_parse] reads back what [lock_render] wrote, when neither the
    fingerprint nor the time stamp contains the separator: the process id
    (none for a negative one, which [isdigit] refuses), the fingerprint (an
    empty one as none) and the time stamp (less the white space at its
    end).  The bound on the process id is the digit limit of [int]. *)
Theorem lock_record_round_trip pid h ts :
  pid < 10 ^ 4300 -> no_sep (or_empty h) -> no_sep ts ->
  lock_parse (lock_render pid h ts)
  = Ok (LockDict (if 0 <=? pid then Some pid else None)
                 (h ≫= or_None) (Some (PyStr.rstrip ts))).
Proof.
  intros Hpid Hh Hts. destruct (Z.leb_spec 0 pid) as [H0|H0].
  - apply lock_parse_rendered; [split|..]; assumption.
  - unfold lock_parse.
    change (PyStr.split LOCK_SEPARATOR (PyStr.strip (lock_render pid h ts)))
      with (fields (lock_render pid h ts)).
    rewrite (fields_render pid h ts Hh Hts).
    assert (Hd : PyStr.isdigit (PyStr.str_of_int pid) = false).
    { unfold PyStr.str_of_int. apply Z.ltb_lt in H0. now rewrite H0. }
    rewrite Hd. now destruct h.
Qed.

(** X2.  After [try_acquire_lock] returned [True], [inspect_lock] reports
    the lock of this process: its process id, alive when the process table
    has it (and the id is not [0]), the fingerprint of the session label and
    the time stamp taken at the start of the call, not corrupt.  The
    fingerprint and the time stamp are assumed free of the separator and of
    carriage returns, as hexadecimal digits and ISO time stamps are. *)
Theorem inspect_after_acquire path retries delay session force w w' :
  let h := session_to_hash session in
  let ts := utc_isoformat (now w) in
  try_acquire_lock path retries delay session force w = (Ok true, w') ->
  pid_ok (self_pid w) ->
  no_sep (or_empty h) -> no_cr (or_empty h) -> no_sep ts -> no_cr ts ->
  inspect_lock path w'
  = LockInfo.mk (Paths.get_lock_path path) true (Some (self_pid w))
      (negb (self_pid w =? 0) && bool_decide (self_pid w ∈ live w))
      (h ≫= or_None) (Some (PyStr.rstrip ts)) false.
Proof.
  intros h ts Hrun Hpid Hh Hh' Hts Hts'.
  rewrite try_acquire_lock_loop in Hrun. fold h ts in Hrun.
  destruct (acquire_loop_spec path delay force h ts retries w)
    as (b & w2 & evs & Hloop & Hsame & _ & Hb).
  rewrite Hloop in Hrun. injection Hrun as -> ->.
  destruct Hb as (evs0 & _ & _ & _ & Hf).
  rewrite (inspect_lock_rendered path w' _ (self_pid w) h ts Hf eq_refl
             Hpid Hh Hts Hh' Hts').
  unfold is_process_alive, OS.pid_exists.
  destruct Hsame as (-> & _). reflexivity.
Qed.

(** X3.  Mutual exclusion.  Once this process, which is running, holds the
    lock it acquired, an acquisition without [force] in any later state
    with the same files and the same processes, by whatever process and
    with whatever session label, sleeps [retries] times and returns
    [False], leaving every file as it is. *)
Theorem held_lock_excludes
    path retries delay session force w w' retries2 delay2 session2 w2 :
  let h := session_to_hash session in
  let ts := utc_isoformat (now w) in
  try_acquire_lock path retries delay session force w = (Ok true, w') ->
  0 < self_pid w < 10 ^ 4300 -> self_pid w ∈ live w ->
  no_sep (or_empty h) -> no_cr (or_empty h) -> no_sep ts -> no_cr ts ->
  fs w2 = fs w' -> live w2 = live w' ->
  exists w3,
    try_acquire_lock path retries2 delay2 session2 false w2 = (Ok false, w3)
    /\ fs w3 = fs w2
    /\ now w3 = now w2 + Z.of_nat retries2 * Z.of_N delay2
    /\ trace w3 = trace w2 ++ repeat (Slept delay2) retries2.
Proof.
  intros h ts Hrun Hpid Hlive Hh Hh' Hts Hts' Hfs2 Hlive2.
  rewrite try_acquire_lock_loop in Hrun. fold h ts in Hrun.
  destruct (acquire_loop_spec path delay force h ts retries w)
    as (b & wb & evs & Hloop & Hsame & _ & Hb).
  rewrite Hloop in Hrun. injection Hrun as -> ->.
  destruct Hb as (evs0 & _ & _ & _ & Hf).
  assert (Halive : LockInfo.alive (inspect_lock path w') = true).
  { assert (Hok : pid_ok (self_pid w)) by (split; [apply Z.lt_le_incl|]; apply Hpid).
    rewrite (inspect_lock_rendered path w' _ (self_pid w) h ts Hf eq_refl
               Hok Hh Hts Hh' Hts').
    simpl. unfold is_process_alive, OS.pid_exists.
    destruct Hsame as (-> & _).
    rewrite bool_decide_eq_true_2 by exact Hlive.
    destruct (Z.eqb_spec (self_pid w) 0) as [E|_]; [|reflexivity].
    rewrite E in Hpid. destruct Hpid as [Hpos _]. now apply Z.lt_irrefl in Hpos. }
  rewrite try_acquire_lock_loop.
  destruct (acquire_loop_contended path delay2 (session_to_hash session2)
              (utc_isoformat (now w2)) retries2 w2)
    as (w3 & Hrun3 & Hfs3 & _ & Hnow3 & Htr3).
  - rewrite Hfs2, Hf. eauto.
  - now rewrite (inspect_lock_ext path w').
  - exists w3. auto.
Qed.

(** X4.  A lock record naming process [0] counts as dead, whatever the
    process table says: [inspect_lock] gives the id but reports the owner as
    not alive, so the next acquisition removes the lock. *)
Theorem pid_zero_is_never_alive path w f h ts :
  fs w !! Paths.get_lock_path path = Some f ->
  data f = Codec.utf8_enc (lock_render 0 h ts) ->
  no_sep (or_empty h) -> no_cr (or_empty h) -> no_sep ts -> no_cr ts ->
  LockInfo.pid (inspect_lock path w) = Some 0
  /\ LockInfo.alive (inspect_lock path w) = false
  /\ LockInfo.corrupt (inspect_lock path w) = false
  /\ forall delay force h' ts',
       acquire_attempt path delay force h' ts' w
       = (Ok Next, removed (Paths.get_lock_path path) w).
Proof.
  intros Hf Hdata Hh Hh' Hts Hts'.
  assert (Hi : inspect_lock path w
               = LockInfo.mk (Paths.get_lock_path path) true (Some 0) false
                   (h ≫= or_None) (Some (PyStr.rstrip ts)) false).
  { assert (Hok : pid_ok 0) by (split; [apply Z.le_refl | reflexivity]).
    now rewrite (inspect_lock_rendered path w f 0 h ts Hf Hdata Hok Hh Hts Hh' Hts'). }
  rewrite Hi. repeat split.
  intros delay force h' ts'. rewrite acquire_attempt_cases. cbv zeta.
  now rewrite Hf, Hi.
Qed.

(** X5.  Against the lock of a running owner, and without [force],
    [try_acquire_lock] sleeps [retries] times, [delay] each, and returns
    [False]; it changes no file. *)
Theorem contended_acquire_gives_up path retries delay session w :
  is_Some (fs w !! Paths.get_lock_path path) ->
  LockInfo.alive (inspect_lock path w) = true ->
  exists w',
    try_acquire_lock path retries delay session false w = (Ok false, w')
    /\ fs w' = fs w
    /\ now w' = now w + Z.of_nat retries * Z.of_N delay
    /\ trace w' = trace w ++ repeat (Slept delay) retries.
Proof.
  intros Hlock Halive. rewrite try_acquire_lock_loop.
  destruct (acquire_loop_contended path delay (session_to_hash session)
              (utc_isoformat (now w)) retries w Hlock Halive)
    as (w' & Hrun & Hfs & _ & Hnow & Htr).
  exists w'. auto.
Qed.

(** X6.  Taking over a lock whose owner is dead, or any lock with [force],
    costs one attempt for the removal and one for the creation: with a
    single attempt the call removes the lock file and returns [False]; with
    two or more (and nobody else creating the file in between) it returns
    [True], without sleeping. *)
Theorem reclaim_takes_two_attempts path delay session force w :
  let lp := Paths.get_lock_path path in
  let record := lock_render (self_pid w) (session_to_hash session)
                  (utc_isoformat (now w)) in
  is_Some (fs w !! lp) ->
  LockInfo.alive (inspect_lock path w) = false \/ force = true ->
  no_racer w ->
  try_acquire_lock path 1 delay session force w = (Ok false, removed lp w)
  /\ forall n,
       try_acquire_lock path (S (S n)) delay session force w
       = (Ok true, locked_by_self lp record (removed lp w))
       /\ now (locked_by_self lp record (removed lp w)) = now w
       /\ trace (locked_by_self lp record (removed lp w))
          = trace w ++ [Removed lp; Created lp].
Proof.
  intros lp record Hlock Hdead Hr. split.
  - rewrite try_acquire_lock_loop. cbn [for_range]. unfold bind at 1.
    now rewrite (acquire_removes path delay force _ _ w Hlock Hdead).
  - intros n. split; [now apply acquire_reclaims|].
    simpl. rewrite raced_on_now, raced_on_trace. simpl.
    now rewrite <- app_assoc.
Qed.

(** X7.  [force_release_lock], and [release_lock], which only calls it.
    When there is no lock file the call returns at once and does nothing.
    When the call returns normally, the lock file is gone, every other file
    is as it was, and a second call returns normally and changes nothing. *)
Theorem force_release_lock_idempotent path w :
  let lp := Paths.get_lock_path path in
  release_lock path w = force_release_lock path w
  /\ (fs w !! lp = None -> force_release_lock path w = (Ok tt, w))
  /\ forall w', force_release_lock path w = (Ok tt, w') ->
       fs w' !! lp = None
       /\ (forall p, p <> lp -> fs w' !! p = fs w !! p)
       /\ force_release_lock path w' = (Ok tt, w').
Proof.
  intros lp. split; [reflexivity|]. split.
  - intros Hnone. rewrite force_release_lock_run. fold lp.
    unfold released. now rewrite Hnone.
  - intros w' Hrun. rewrite force_release_lock_run in Hrun. fold lp in Hrun.
    injection Hrun as <-.
    split; [apply released_lock|].
    split; [intros p Hp; now apply released_other|].
    rewrite force_release_lock_run. fold lp. f_equal.
    unfold released at 1. now rewrite released_lock.
Qed.

(** X8.  Leaving a session that does not simulate always releases: whether
    or not [__exit__] raises (it does when the temporary file has
    disappeared), afterwards neither the lock file nor the temporary file
    exists. *)
Theorem exit_always_releases self w :
  AtomicWriter.simulate self = false ->
  AtomicWriter.tmpfile self <> AtomicWriter.path self ->
  exists r w',
    AtomicWriter_exit self w = (r, w')
    /\ fs w' !! Paths.get_lock_path (AtomicWriter.path self) = None
    /\ fs w' !! AtomicWriter.tmpfile self = None
    /\ (r = Ok tt <-> is_Some (fs w !! AtomicWriter.tmpfile self)).
Proof.
  intros Hsim Hne.
  destruct (fs w !! AtomicWriter.tmpfile self) as [ft|] eqn:Htmp.
  - destruct (AtomicWriter_exit_commits self w ft Hsim Hne Htmp)
      as (w' & evs & Hrun & _ & Hl & Ht & _).
    exists (Ok tt), w'. split; [exact Hrun|]. split; [exact Hl|].
    split; [exact Ht|]. split; eauto.
  - destruct self as [path tmpfile retries delay sim session force encoding].
    cbn [AtomicWriter.simulate AtomicWriter.path AtomicWriter.tmpfile] in *.
    subst sim.
    assert (Hbody : exists w1,
      (e <- gets (OS.exists_ path) ;;
       (if e then try_copystat path tmpfile else ret tt) ;;
       OS.replace tmpfile path) w = (Raise (FileNotFoundError tmpfile), w1)
      /\ fs w1 !! tmpfile = None).
    { unfold bind at 1. unfold gets. unfold bind at 1.
      destruct (OS.exists_ path w).
      - destruct (try_copystat_spec path tmpfile w)
          as (w1 & e & H1 & _ & _ & H4 & _).
        rewrite H1. specialize (H4 tmpfile). rewrite Htmp in H4.
        destruct (fs w1 !! tmpfile) eqn:E1; [discriminate H4|].
        exists w1. simpl. now rewrite E1.
      - exists w. simpl. now rewrite Htmp. }
    destruct Hbody as (w1 & Hbody & Ht1).
    exists (Raise (FileNotFoundError tmpfile)),
      (released (Paths.get_lock_path path) w1).
    split.
    { unfold AtomicWriter_exit.
      cbn [AtomicWriter.simulate AtomicWriter.path AtomicWriter.tmpfile negb].
      eapply try_finally_run; [exact Hbody|]. now apply cleanup_run. }
    split; [apply released_lock|].
    split.
    { destruct (decide (tmpfile = Paths.get_lock_path path)) as [->|Hn];
        [apply released_lock | now rewrite released_other]. }
    split; [discriminate | intros [x Hx]; discriminate Hx].
Qed.

(** X9.  With [retries = 0] nothing is attempted: [try_acquire_lock]
    returns [False] at once, also when the lock is free, so a write that
    does not simulate fails with the lock-unavailable error, and a read
    fails with its [RuntimeError], also when the file is there. *)
Theorem zero_retries_never_succeed path data delay session force encoding require_lock w :
  try_acquire_lock path 0 delay session force w = (Ok false, w)
  /\ (exists w', write_atomic path data 0 delay false session force encoding w
                 = (Raise (lock_unavailable path), w')
        /\ fs w' = fs w /\ now w' = now w /\ trace w' = trace w)
  /\ read_atomic path 0 delay require_lock encoding w
     = (Raise (RuntimeError ("Error: Read failed or locked: '" +:+ path +:+ "'")), w).
Proof.
  split; [reflexivity|]. split; [|reflexivity].
  destruct (AtomicWriter_init_spec path 0 delay false session force encoding w)
    as (rand & wu & Hinit & Hfs & _ & Hnow & Htr).
  exists wu. unfold write_atomic. unfold bind at 1. rewrite Hinit.
  split; [reflexivity|]. auto.
Qed.

(* =================================================================== *)
(** * Further properties of reading and moving                         *)
(* =================================================================== *)

(** The error of [AtomicReader.__enter__]. *)
Definition read_failed (path : string) : exn :=
  RuntimeError ("Error: Read failed or locked: '" +:+ path +:+ "'").

(** The world after [n] sleeps of [d]. *)
Lemma slept_n_spec path (self : AtomicReader.t) n w :
  AtomicReader.path self = path ->
  fs w !! path = None
  \/ AtomicReader.require_lock self = true
     /\ is_Some (fs w !! Paths.get_lock_path path) ->
  exists w',
    for_range n
      (locked <- gets (is_locked path) ;;
       if negb (AtomicReader.require_lock self) || negb locked then
         r <- attempt (open_atomic path mode_r (AtomicReader.encoding self)) ;;
         match r with
         | Ok f => ret (Return f)
         | Raise (FileNotFoundError _) => OS.sleep (AtomicReader.delay self) ;; ret Next
         | Raise e => raise e
         end
       else OS.sleep (AtomicReader.delay self) ;; ret Next)
      (raise (read_failed path)) w
    = (Raise (read_failed path), w')
    /\ fs w' = fs w
    /\ now w' = now w + Z.of_nat n * Z.of_N (AtomicReader.delay self)
    /\ trace w' = trace w ++ repeat (Slept (AtomicReader.delay self)) n.
Proof.
  intros Hpath. revert w. induction n as [|n IH]; intros w Hw.
  - exists w. simpl. rewrite app_nil_r. repeat split. lia.
  - destruct (IH (slept (AtomicReader.delay self) w)) as (w' & Hrun & Hfs & Hnow & Htr);
      [exact Hw|].
    exists w'. split.
    + rewrite <- Hrun. cbn [for_range]. unfold bind at 1.
      unfold is_locked, bind at 1, gets.
      destruct (negb (AtomicReader.require_lock self)
                || negb (OS.exists_ (Paths.get_lock_path path) w)) eqn:Hgo.
      * assert (Hnone : fs w !! path = None).
        { destruct Hw as [H|[Hreq Hl]]; [exact H|].
          rewrite Hreq in Hgo. destruct Hl as [fl Hl].
          rewrite (exists_Some _ _ _ Hl) in Hgo. discriminate Hgo. }
        simpl. rewrite Hnone. reflexivity.
      * reflexivity.
    + split; [exact Hfs|]. split.
      * rewrite Hnow. simpl now. lia.
      * rewrite Htr. simpl. now rewrite <- app_assoc.
Qed.

(** A read that finds the file and may open it. *)
Lemma read_atomic_run path n delay require_lock k w f :
  fs w !! path = Some f ->
  require_lock = false \/ fs w !! Paths.get_lock_path path = None ->
  read_atomic path (S n) delay require_lock k w = (decode_text k (data f), w).
Proof.
  intros Hf Hgo. unfold read_atomic, AtomicReader_enter. simpl.
  assert (Hb : negb require_lock
               || negb (is_locked path w) = true).
  { destruct Hgo as [-> | Hl]; [reflexivity|].
    unfold is_locked. rewrite (exists_None _ _ Hl). apply orb_true_r. }
  rewrite Hb. simpl. rewrite Hf. simpl.
  now destruct (decode_text k (data f)).
Qed.

(** X10.  Reading a file that is not there: [read_atomic] sleeps [retries]
    times and raises its [RuntimeError]; nothing is created. *)
Theorem read_atomic_missing_file path retries delay require_lock encoding w :
  fs w !! path = None ->
  exists w',
    read_atomic path retries delay require_lock encoding w
    = (Raise (read_failed path), w')
    /\ fs w' = fs w
    /\ now w' = now w + Z.of_nat retries * Z.of_N delay
    /\ trace w' = trace w ++ repeat (Slept delay) retries.
Proof.
  intros Hnone.
  destruct (slept_n_spec path
              (AtomicReader.mk path retries delay require_lock encoding)
              retries w eq_refl (or_introl Hnone))
    as (w' & Hrun & Hfs & Hnow & Htr).
  exists w'. split; [|auto].
  unfold read_atomic, with_, AtomicReader_enter. unfold bind at 1.
  cbn [AtomicReader.path AtomicReader.retries AtomicReader.delay
       AtomicReader.require_lock AtomicReader.encoding] in *.
  unfold read_failed in Hrun. now rewrite Hrun.
Qed.

(** X11.  Readers and the lock.  By default ([require_lock=False]) a read
    does not look at the lock: it returns the decoded text of the file at
    once, also while the lock is held.  With [require_lock=True] a read
    waits for the lock to go away: while it is there, the file is not
    opened, and after [retries] sleeps the read raises. *)
Theorem read_atomic_and_the_lock path retries delay encoding w f text :
  fs w !! path = Some f ->
  Codec.dec encoding (data f) = Some text ->
  is_Some (fs w !! Paths.get_lock_path path) ->
  read_atomic path (S retries) delay false encoding w
  = (Ok (PyStr.universal_newlines text), w)
  /\ exists w',
       read_atomic path retries delay true encoding w
       = (Raise (read_failed path), w')
       /\ fs w' = fs w
       /\ trace w' = trace w ++ repeat (Slept delay) retries.
Proof.
  intros Hf Hdec Hlock. split.
  - rewrite (read_atomic_run path retries delay false encoding w f Hf (or_introl eq_refl)).
    unfold decode_text. now rewrite Hdec.
  - destruct (slept_n_spec path (AtomicReader.mk path retries delay true encoding)
                retries w eq_refl (or_intror (conj eq_refl Hlock)))
      as (w' & Hrun & Hfs & _ & Htr).
    exists w'. split; [|auto].
    unfold read_atomic, with_, AtomicReader_enter. unfold bind at 1.
    cbn [AtomicReader.path AtomicReader.retries AtomicReader.delay
         AtomicReader.require_lock AtomicReader.encoding] in *.
    unfold read_failed in Hrun. now rewrite Hrun.
Qed.

(** X12.  Moving onto a path that does not exist: whatever [force] is, the
    file is renamed, metadata and all, and no metadata is copied; and when
    the source does not exist either, the move raises [FileNotFoundError]
    and changes nothing. *)
Theorem move_atomic_fresh_destination src dst force w :
  fs w !! dst = None ->
  match fs w !! src with
  | Some fsrc =>
      exists w', _move_atomic src dst force w = (Ok tt, w')
        /\ fs w' = <[dst := fsrc]> (delete src (fs w))
        /\ trace w' = trace w ++ [Replaced src dst]
        /\ move_atomic src dst force w = (Ok tt, w')
  | None => _move_atomic src dst force w = (Raise (FileNotFoundError src), w)
  end
  /\ move_atomic_force src dst w = _move_atomic src dst true w.
Proof.
  intros Hdst. split; [|reflexivity].
  unfold move_atomic, _move_atomic. simpl. rewrite (exists_None _ _ Hdst). simpl.
  destruct (fs w !! src) as [fsrc|] eqn:Hsrc; [|reflexivity].
  eexists. split; [reflexivity|]. simpl. auto.
Qed.

(* =================================================================== *)
(** * Further properties of writing                                    *)
(* =================================================================== *)

(** X13.  What a successful core write leaves: the encoded text at the
    target, no lock file, no temporary file, and every other file as it
    was. *)
Theorem write_atomic_commits path c retries delay session force encoding w w1 :
  write_atomic path c retries delay false session force encoding w = (Ok tt, w1) ->
  exists rand bs,
    Codec.enc encoding c = Some bs
    /\ data <$> fs w1 !! path = Some bs
    /\ fs w1 !! Paths.get_lock_path path = None
    /\ fs w1 !! Paths.get_tmp_path rand path = None
    /\ forall p, p <> path -> p <> Paths.get_lock_path path ->
         p <> Paths.get_tmp_path rand path -> fs w1 !! p = fs w !! p.
Proof.
  unfold write_atomic. intros Hrun.
  destruct (AtomicWriter_init_spec path retries delay false session force encoding w)
    as (rand & wu & Hinit & Hfsu & _).
  unfold bind at 1 in Hrun. rewrite Hinit in Hrun.
  set (self := AtomicWriter.mk _ _ _ _ _ _ _ _) in Hrun.
  apply with_Ok_inv in Hrun. destruct Hrun as (f & wa & wb & Henter & Hbody & Hexit).
  apply AtomicWriter_enter_ok in Henter; [|reflexivity].
  destruct Henter as (-> & (ft & Hft & Hempty) & Hframe).
  cbn [self AtomicWriter.tmpfile AtomicWriter.encoding AtomicWriter.path]
    in Hft, Hbody, Hframe.
  cbn [handle_write] in Hbody. unfold write_text in Hbody.
  destruct (Codec.enc encoding c) as [bs|] eqn:Henc; [|discriminate].
  exists rand, bs. split; [reflexivity|].
  injection Hbody as <-.
  destruct (AtomicWriter_exit_commits self
              (set_fs (alter (fun f => File (data f ++ bs) (ctime f) (stat f))
                         (Paths.get_tmp_path rand path)) wa)
              (File (data ft ++ bs) (ctime ft) (stat ft)))
    as (w' & evs & Hexit' & Hdata & Hlock & Htmp & Hfr & _); try reflexivity.
  - apply tmp_path_ne_path.
  - simpl. rewrite lookup_alter_eq, Hft. reflexivity.
  - rewrite Hexit in Hexit'. injection Hexit' as <-.
    cbn [self AtomicWriter.tmpfile AtomicWriter.path] in Hdata, Hlock, Htmp, Hfr.
    simpl in Hdata. rewrite Hempty in Hdata.
    split; [exact Hdata|]. split; [exact Hlock|]. split; [exact Htmp|].
    intros p H1 H2 H3. rewrite (Hfr p H1 H3 H2). simpl.
    rewrite lookup_alter_ne by congruence.
    rewrite (Hframe p H2 H3). now rewrite Hfsu.
Qed.

(** X14.  A core write to a target whose lock is free succeeds, given at
    least one attempt, text that the encoding accepts, and nobody else
    creating the lock file at that moment. *)
Theorem write_atomic_succeeds path c n delay session force encoding w bs :
  fs w !! Paths.get_lock_path path = None ->
  no_racer w ->
  Codec.enc encoding c = Some bs ->
  exists w1,
    write_atomic path c (S n) delay false session force encoding w = (Ok tt, w1)
    /\ data <$> fs w1 !! path = Some bs
    /\ fs w1 !! Paths.get_lock_path path = None
    /\ now w1 = now w.
Proof.
  intros Hfree Hr Henc.
  assert (Hu : exists rand wu, OS.uuid4 w = (Ok rand, wu)
            /\ fs wu = fs w /\ racers wu = racers w /\ now wu = now w).
  { simpl. destruct (entropy w); eexists _, _; repeat split. }
  destruct Hu as (rand & wu & Hu & Hfsu & Hru & Hnu).
  set (tmp := Paths.get_tmp_path rand path).
  set (lp := Paths.get_lock_path path) in *.
  set (self := AtomicWriter.mk path tmp (S n) delay false session force encoding).
  set (record := lock_render (self_pid wu) (session_to_hash session)
                   (utc_isoformat (now wu))).
  set (wl := locked_by_self lp record wu).
  assert (Hacq : try_acquire_lock path (S n) delay session force wu = (Ok true, wl)).
  { rewrite try_acquire_lock_loop. cbn [for_range]. unfold bind at 1.
    rewrite acquire_attempt_cases. cbv zeta. fold lp.
    rewrite Hfsu, Hfree, Hru. unfold no_racer in Hr.
    destruct (racers w) as [|[x|] rs]; [reflexivity | discriminate Hr | reflexivity]. }
  set (wa := snd (OS.open_w tmp wl)).
  assert (Henter : AtomicWriter_enter self wu = (Ok (TextWriter tmp encoding), wa)).
  { unfold AtomicWriter_enter.
    cbn [self AtomicWriter.simulate AtomicWriter.path AtomicWriter.retries
         AtomicWriter.delay AtomicWriter.session AtomicWriter.force
         AtomicWriter.tmpfile AtomicWriter.encoding].
    unfold bind at 1. rewrite Hacq. reflexivity. }
  assert (Hta : exists ft, fs wa !! tmp = Some ft /\ data ft = []).
  { subst wa. simpl. rewrite lookup_insert_eq.
    destruct (_ !! tmp); eexists; split; reflexivity. }
  destruct Hta as (ft & Hta & Hempty).
  assert (Hna : now wa = now w).
  { subst wa wl. simpl. now rewrite raced_on_now. }
  clearbody wa.
  set (wb := set_fs (alter (fun f => File (data f ++ bs) (ctime f) (stat f)) tmp) wa).
  assert (Hbody : handle_write (TextWriter tmp encoding) c wa = (Ok tt, wb)).
  { cbn [handle_write]. unfold write_text. now rewrite Henc. }
  destruct (AtomicWriter_exit_commits self wb (File (data ft ++ bs) (ctime ft) (stat ft)))
    as (w1 & evs & Hexit & Hdata & Hlock & _ & _ & Hnow & _).
  - reflexivity.
  - apply tmp_path_ne_path.
  - subst wb. simpl. now rewrite lookup_alter_eq, Hta.
  - exists w1. split.
    + assert (Hinit : AtomicWriter_init path (S n) delay false session force encoding w
                      = (Ok self, wu)).
      { unfold AtomicWriter_init, get_tmp_path, bind. now rewrite Hu. }
      unfold write_atomic. unfold bind at 1. rewrite Hinit.
      exact (with_run _ _ _ _ _ _ _ _ _ Henter Hbody Hexit).
    + cbn [self AtomicWriter.path] in Hdata, Hlock. simpl in Hdata.
      rewrite Hempty in Hdata. split; [exact Hdata|]. split; [exact Hlock|].
      rewrite Hnow. exact Hna.
Qed.

(* =================================================================== *)
(** * The temporary file                                               *)
(* =================================================================== *)

Lemma rstrip_slash_no_end s : Paths.ends_with_slash (Paths.rstrip_slash s) = false.
Proof.
  induction s as [|c r IH]; [reflexivity|]. cbn [Paths.rstrip_slash]. cbv zeta.
  destruct (Paths.rstrip_slash r) as [|c' r'] eqn:E.
  - simpl. destruct (Ascii.eqb c "/") eqn:Hc; simpl; [reflexivity | exact Hc].
  - rewrite andb_false_r. exact IH.
Qed.

Lemma rstrip_slash_id s :
  Paths.ends_with_slash s = false -> Paths.rstrip_slash s = s.
Proof.
  induction s as [|c r IH]; [reflexivity|]. intros H.
  destruct r as [|c' r'].
  - simpl in *. now rewrite H.
  - change (Paths.ends_with_slash (String c' r') = false) in H.
    change (Paths.rstrip_slash (String c (String c' r')))
      with (if Ascii.eqb c "/" && PyStr.is_empty (Paths.rstrip_slash (String c' r'))
            then EmptyString else String c (Paths.rstrip_slash (String c' r'))).
    rewrite (IH H). cbn [PyStr.is_empty]. now rewrite andb_false_r.
Qed.

Lemma rstrip_slash_app s : Paths.rstrip_slash (s +:+ "/") = Paths.rstrip_slash s.
Proof.
  induction s as [|c r IH]; [reflexivity|].
  change (String c r +:+ "/") with (String c (r +:+ "/")).
  cbn [Paths.rstrip_slash]. now rewrite IH.
Qed.

Lemma all_slashes_end s :
  PyStr.all (Ascii.eqb "/") s = true -> PyStr.is_empty s = false ->
  Paths.ends_with_slash s = true.
Proof.
  induction s as [|c r IH]; [discriminate|]. simpl.
  rewrite andb_true_iff. intros [Hc Hr] _.
  destruct r as [|c' r']; [now rewrite Ascii.eqb_sym | now apply IH].
Qed.

(** A directory name, as [os.path.dirname] returns it, consists of slashes
    only or does not end in one. *)
Lemma dirname_shape p :
  PyStr.all (Ascii.eqb "/") (Paths.dirname p) = true
  \/ PyStr.is_empty (Paths.dirname p) = false
     /\ Paths.ends_with_slash (Paths.dirname p) = false.
Proof.
  unfold Paths.dirname. cbv zeta.
  destruct (fst (Paths.rsplit p)) as [|c r] eqn:E; [now left|].
  cbn [PyStr.is_empty negb andb].
  destruct (PyStr.all (Ascii.eqb "/") (String c r)) eqn:Hall; [now left|].
  cbn [negb]. right. split; [|apply rstrip_slash_no_end].
  destruct (Paths.rstrip_slash (String c r)) eqn:Hs; [|reflexivity].
  exfalso. clear E. revert Hall Hs. generalize (String c r). clear.
  intros s. induction s as [|c r IH]; [discriminate|].
  cbn [Paths.rstrip_slash PyStr.all]. cbv zeta.
  destruct (Ascii.eqb c "/" && PyStr.is_empty (Paths.rstrip_slash r)) eqn:Hc;
    [|discriminate].
  apply andb_true_iff in Hc as [Hc He]. rewrite Ascii.eqb_sym, Hc. simpl.
  intros Hall _. apply IH; [exact Hall|].
  now destruct (Paths.rstrip_slash r).
Qed.

Lemma join_tmp_name d rand path :
  Paths.join d (tmp_name rand path)
  = if PyStr.is_empty d || Paths.ends_with_slash d
    then d +:+ tmp_name rand path
    else d +:+ "/" +:+ tmp_name rand path.
Proof. reflexivity. Qed.

(** The temporary file is in the directory of the target. *)
Lemma dirname_tmp rand path :
  Paths.dirname (Paths.get_tmp_path rand path) = Paths.dirname path.
Proof.
  change (Paths.get_tmp_path rand path)
    with (Paths.join (Paths.dirname path) (tmp_name rand path)).
  rewrite join_tmp_name.
  pose proof (tmp_name_no_slash rand path) as Hn.
  generalize dependent (tmp_name rand path). intros n Hn.
  destruct (dirname_shape path) as [Hall|[Hne Hend]];
    generalize dependent (Paths.dirname path); intros d.
  - intros Hall. destruct d as [|c r].
    + simpl. unfold Paths.dirname. now rewrite (rsplit_no_slash n Hn).
    + rewrite (all_slashes_end _ Hall eq_refl). cbn [PyStr.is_empty orb].
      unfold Paths.dirname.
      rewrite (rsplit_app_slash _ n Hn (all_slashes_end _ Hall eq_refl)).
      cbn [fst]. now rewrite Hall, andb_false_r.
  - intros Hne Hend. rewrite Hne, Hend. cbn [orb].
    rewrite <- app_assoc_str. unfold Paths.dirname.
    rewrite (rsplit_app_slash _ n Hn (ends_with_slash_app d)). cbn [fst].
    assert (Hd : PyStr.is_empty (d +:+ "/") = false) by now destruct d.
    assert (Hnot : PyStr.all (Ascii.eqb "/") (d +:+ "/") = false).
    { rewrite all_app.
      destruct (PyStr.all (Ascii.eqb "/") d) eqn:Hall; [|reflexivity].
      now rewrite (all_slashes_end d Hall Hne) in Hend. }
    rewrite Hd, Hnot. cbn [negb andb].
    now rewrite rstrip_slash_app, rstrip_slash_id.
Qed.

(** X15.  [get_tmp_path] returns a path in the directory of the target,
    whose name is that of the target between [.__tmp-], eight hexadecimal
    digits and a dot, and [.tmp]; it is neither the target nor its lock
    file, whatever the random draw; and it touches no file. *)
Theorem get_tmp_path_beside_target path w :
  exists rand w',
    get_tmp_path path w = (Ok (Paths.get_tmp_path rand path), w')
    /\ fs w' = fs w /\ trace w' = trace w
    /\ Paths.get_tmp_path rand path <> path
    /\ Paths.get_tmp_path rand path <> Paths.get_lock_path path
    /\ Paths.dirname (Paths.get_tmp_path rand path) = Paths.dirname path
    /\ Paths.basename (Paths.get_tmp_path rand path)
       = ".__tmp-" +:+ Paths.hex8 rand +:+ "." +:+ Paths.basename path +:+ ".tmp"
    /\ String.length (Paths.hex8 rand) = 8%nat.
Proof.
  assert (Hu : exists rand w', OS.uuid4 w = (Ok rand, w')
            /\ fs w' = fs w /\ trace w' = trace w).
  { simpl. destruct (entropy w); eexists _, _; repeat split. }
  destruct Hu as (rand & w' & Hu & Hfs & Htr).
  exists rand, w'. split.
  { unfold get_tmp_path, bind. now rewrite Hu. }
  split; [exact Hfs|]. split; [exact Htr|].
  split; [apply tmp_path_ne_path|]. split; [apply tmp_path_ne_lock|].
  split; [apply dirname_tmp|]. split; [apply basename_tmp|].
  apply hex_digits_length.
Qed.

(* =================================================================== *)
(** * Further properties of the format wrappers                        *)
(* =================================================================== *)

(** X16.  When pickling fails, [atomic_pickle_write] raises after it has
    created its temporary file, and does not remove it: the target and all
    other files are as before, and the temporary file stays behind, holding
    whatever the pickler had written by then. *)
Theorem pickle_failure_leaves_temp_file path obj w :
  pickle_dumps obj = None ->
  exists rand w',
    atomic_pickle_write path obj w = (Raise SerializerError, w')
    /\ (exists ft, fs w' !! Paths.get_tmp_path rand path = Some ft
                   /\ data ft = pickle_partial obj)
    /\ fs w' !! path = fs w !! path
    /\ forall p, p <> Paths.get_tmp_path rand path -> fs w' !! p = fs w !! p.
Proof.
  intros Hfail.
  assert (Hu : exists rand wu, OS.uuid4 w = (Ok rand, wu) /\ fs wu = fs w).
  { simpl. destruct (entropy w); eexists _, _; repeat split. }
  destruct Hu as (rand & wu & Hu & Hfs).
  set (tmp := Paths.get_tmp_path rand path).
  set (w' := set_fs (alter (fun f => File (data f ++ pickle_partial obj) (ctime f) (stat f))
                       tmp) (snd (OS.open_w tmp wu))).
  exists rand, w'.
  split.
  { unfold atomic_pickle_write, get_tmp_path, bind. rewrite Hu. cbn [ret].
    fold tmp. rewrite Hfail. reflexivity. }
  assert (Hframe : forall p, p <> tmp -> fs w' !! p = fs w !! p).
  { intros p Hp. subst w'. simpl.
    rewrite lookup_alter_ne, lookup_insert_ne by congruence. now rewrite Hfs. }
  split.
  { subst w'. simpl. rewrite lookup_alter_eq, lookup_insert_eq. simpl.
    destruct (fs wu !! tmp); simpl; eauto. }
  split; [|exact Hframe].
  apply Hframe. intros H. symmetry in H. revert H. apply tmp_path_ne_path.
Qed.

(** X17.  Pickle round trip: [atomic_pickle_write] always succeeds when
    pickling does, and [atomic_pickle_read] of the same path then unpickles
    exactly the bytes that were written, leaving the world as it is. *)
Theorem pickle_round_trip path obj bs w :
  pickle_dumps obj = Some bs ->
  exists w1,
    atomic_pickle_write path obj w = (Ok tt, w1)
    /\ atomic_pickle_read path w1 = of_option (pickle_loads bs) w1.
Proof.
  intros Hbs.
  destruct (atomic_pickle_write_run path obj bs w Hbs) as (w1 & Hrun & Hdata & _).
  exists w1. split; [exact Hrun|].
  destruct (fs w1 !! path) as [f|] eqn:Hf; [|discriminate Hdata].
  simpl in Hdata. injection Hdata as Hdata.
  unfold atomic_pickle_read. simpl. rewrite Hf. simpl. rewrite Hf. simpl.
  rewrite Hdata. now destruct (pickle_loads bs).
Qed.

(** X18.  JSON and YAML round trip: after a dump that succeeded, a load of
    the same path with the same encoding parses exactly the text that the
    serializer produced, provided that text has no carriage return and the
    encoding decodes what it encodes. *)
Theorem json_yaml_round_trip path obj encoding text w w1 :
  Codec.lossless encoding -> no_cr text ->
  (json_dumps obj = Some text ->
   atomic_json_dump path obj encoding w = (Ok tt, w1) ->
   atomic_json_load path encoding w1 = of_option (json_loads text) w1)
  /\ (yaml_safe_dump obj = Some text ->
      atomic_yaml_dump path obj encoding w = (Ok tt, w1) ->
      atomic_yaml_load path encoding w1 = of_option (yaml_safe_load text) w1).
Proof.
  intros Hk Hcr.
  assert (Hread : write_atomic path text DEFAULT_RETRIES DEFAULT_DELAY false None
                    false encoding w = (Ok tt, w1) ->
                  read_atomic path DEFAULT_RETRIES DEFAULT_DELAY false encoding w1
                  = (Ok text, w1)).
  { intros Hw. apply write_atomic_ok in Hw. destruct Hw as (bs & Henc & Hdata & _).
    destruct (fs w1 !! path) as [f|] eqn:Hf; [|discriminate Hdata].
    simpl in Hdata. injection Hdata as Hdata.
    unfold DEFAULT_RETRIES.
    rewrite (read_atomic_run path 4 DEFAULT_DELAY false encoding w1 f Hf
               (or_introl eq_refl)).
    unfold decode_text. rewrite Hdata, (Hk _ _ Henc).
    now rewrite universal_newlines_id. }
  split; intros Hd Hrun.
  - unfold atomic_json_dump in Hrun. unfold bind at 1 in Hrun.
    rewrite Hd in Hrun. cbn [of_option ret] in Hrun.
    unfold atomic_json_load. unfold bind at 1. now rewrite (Hread Hrun).
  - unfold atomic_yaml_dump in Hrun. unfold bind at 1 in Hrun.
    rewrite Hd in Hrun. cbn [of_option ret] in Hrun.
    unfold atomic_yaml_load. unfold bind at 1. now rewrite (Hread Hrun).
Qed.

(* =================================================================== *)
(** * Further properties: failures, age and time                       *)
(* =================================================================== *)

(** X19.  The JSON and YAML dumps serialize before they open the write
    session: when the serializer fails, the dump raises and nothing at all
    has happened, no lock taken, no file created. *)
Theorem serializer_failure_touches_nothing path obj encoding w :
  (json_dumps obj = None ->
   atomic_json_dump path obj encoding w = (Raise SerializerError, w))
  /\ (yaml_safe_dump obj = None ->
      atomic_yaml_dump path obj encoding w = (Raise SerializerError, w)).
Proof.
  split; intros H; [unfold atomic_json_dump | unfold atomic_yaml_dump];
    unfold bind at 1; now rewrite H.
Qed.

(** The text a block writes, piece after piece. *)
Fixpoint text_of (cs : list string) : string :=
  match cs with
  | [] => EmptyString
  | c :: r => c +:+ text_of r
  end.

Lemma stateless_empty k e :
  Codec.stateless k -> Codec.enc k EmptyString = Some e -> e = [].
Proof.
  intros Hk He. pose proof (Hk EmptyString EmptyString) as H.
  simpl in H. rewrite He in H. simpl in H. injection H as H.
  apply (f_equal (@length byte)) in H. rewrite length_app in H.
  destruct e; [reflexivity | simpl in H; lia].
Qed.

(** For an encoding without state, the encoding of the whole text is made
    of the encodings of the pieces. *)
Lemma stateless_chunks k cs bs :
  Codec.stateless k -> Codec.enc k (text_of cs) = Some bs ->
  exists bss, Forall2 (fun c x => Codec.enc k c = Some x) cs bss /\ bs = concat bss.
Proof.
  intros Hk. revert bs. induction cs as [|c r IH]; intros bs Hbs.
  - exists []. split; [constructor|]. simpl in Hbs. now apply (stateless_empty k).
  - cbn [text_of] in Hbs. rewrite Hk in Hbs.
    destruct (Codec.enc k c) as [x|] eqn:Hx; [|discriminate Hbs].
    destruct (Codec.enc k (text_of r)) as [y|] eqn:Hy; [|discriminate Hbs].
    simpl in Hbs. injection Hbs as <-.
    destruct (IH y eq_refl) as (bss & Hall & ->).
    exists (x :: bss). split; [now constructor | reflexivity].
Qed.

Lemma utf8_enc_app a b :
  Codec.utf8_enc (a +:+ b) = Codec.utf8_enc a ++ Codec.utf8_enc b.
Proof.
  induction a as [|c r IH]; [reflexivity|].
  change (Codec.utf8_enc (String c r +:+ b))
    with (Codec.utf8_enc_char c ++ Codec.utf8_enc (r +:+ b)).
  change (Codec.utf8_enc (String c r))
    with (Codec.utf8_enc_char c ++ Codec.utf8_enc r).
  now rewrite IH, <- app_assoc.
Qed.

Lemma utf8_stateless : Codec.stateless Codec.utf8.
Proof. intros a b. simpl. now rewrite utf8_enc_app. Qed.

(** X20.  A session whose block writes several pieces of text and returns
    normally leaves the encoding of the whole text at the target, and
    releases the lock; for an encoding without state. *)
Theorem session_commits_block
    rand path retries delay session force encoding b bs w f wa :
  let tmpfile := Paths.get_tmp_path rand path in
  let self := AtomicWriter.mk path tmpfile retries delay false session force encoding in
  Codec.stateless encoding ->
  AtomicWriter_enter self w = (Ok f, wa) ->
  fails b = None ->
  Codec.enc encoding (text_of (chunks b)) = Some bs ->
  exists w',
    AtomicWriter_session self b w = (Ok tt, w')
    /\ data <$> fs w' !! path = Some bs
    /\ fs w' !! Paths.get_lock_path path = None
    /\ fs w' !! tmpfile = None.
Proof.
  intros tmpfile self Hk Henter Hfails Hbs.
  destruct (stateless_chunks encoding (chunks b) bs Hk Hbs) as (bss & Henc & ->).
  destruct (AtomicWriter_enter_ok self w f wa eq_refl Henter)
    as (Hf & (ft & Hft & Hempty) & _).
  cbn [self AtomicWriter.tmpfile AtomicWriter.encoding AtomicWriter.path] in Hf, Hft.
  fold tmpfile in Hf, Hft. subst f.
  destruct (write_chunks_text tmpfile encoding (chunks b) wa ft Hft)
    as (r & wb & bs & Hr & Hfb & _ & _ & _ & _ & Hall).
  destruct (Hall bss Henc) as [-> ->].
  rewrite Hempty in Hfb. simpl in Hfb.
  destruct (AtomicWriter_exit_commits self wb _ eq_refl
              (tmp_path_ne_path rand path) Hfb)
    as (w' & evs & Hexit & Hdata & Hlock & Htmp & _).
  cbn [self AtomicWriter.tmpfile AtomicWriter.path] in Hdata, Hlock, Htmp.
  simpl in Hdata.
  assert (Hblock : run_block b (TextWriter tmpfile encoding) wa = (Ok tt, wb)).
  { unfold run_block, bind. now rewrite Hr, Hfails. }
  exists w'. split; [exact (with_run _ _ _ _ _ _ _ _ _ Henter Hblock Hexit)|].
  auto.
Qed.




(** The calls of [time.sleep] among some events, and the time asked for. *)
Definition sleeps (evs : list event) : nat :=
  length (List.filter (fun e => match e with Slept _ => true | _ => false end) evs).

Fixpoint slept_total (evs : list event) : N :=
  match evs with
  | [] => 0
  | Slept d :: r => d + slept_total r
  | _ :: r => slept_total r
  end%N.

Lemma waiting_sleeps lp delay evs :
  Forall (waiting lp delay) evs ->
  (sleeps evs <= attempts evs)%nat
  /\ (slept_total evs = N.of_nat (sleeps evs) * delay)%N
  /\ forall d, In (Slept d) evs -> d = delay.
Proof.
  induction 1 as [|e evs He _ IH].
  - split; [reflexivity|]. split; [reflexivity|]. intros d [].
  - destruct IH as (IH1 & IH2 & IH3).
    unfold sleeps, attempts in *.
    destruct He as [-> | [-> | ->]]; cbn [List.filter ends_attempt length slept_total].
    + split; [lia|]. split; [rewrite IH2; lia|].
      intros d [[= <-]|Hin]; [reflexivity | now apply IH3].
    + split; [lia|]. split; [exact IH2|].
      intros d [Hd|Hin]; [discriminate Hd | now apply IH3].
    + split; [lia|]. split; [exact IH2|].
      intros d [Hd|Hin]; [discriminate Hd | now apply IH3].
Qed.

(** X22.  The waiting of [try_acquire_lock]: whatever its outcome, the call
    sleeps at most [retries] times, each time for [delay], so that the time
    it asks [time.sleep] for is at most [retries] times [delay]. *)
Theorem try_acquire_lock_time_bound path retries delay session force w :
  exists evs,
    trace (snd (try_acquire_lock path retries delay session force w)) = trace w ++ evs
    /\ (forall d, In (Slept d) evs -> d = delay)
    /\ (sleeps evs <= retries)%nat
    /\ (slept_total evs <= N.of_nat retries * delay)%N.
Proof.
  rewrite try_acquire_lock_loop.
  destruct (acquire_loop_spec path delay force (session_to_hash session)
              (utc_isoformat (now w)) retries w)
    as (b & w' & evs & Hloop & _ & Htr & Hb).
  rewrite Hloop. exists evs. split; [exact Htr|].
  set (lp := Paths.get_lock_path path) in *.
  assert (Hw : exists evs0, Forall (waiting lp delay) evs0
                 /\ (attempts evs0 <= retries)%nat
                 /\ sleeps evs = sleeps evs0
                 /\ slept_total evs = slept_total evs0
                 /\ forall d, In (Slept d) evs -> In (Slept d) evs0).
  { destruct b.
    - destruct Hb as (evs0 & -> & Hw0 & Hlt & _). exists evs0.
      split; [exact Hw0|]. split; [lia|].
      split.
      { unfold sleeps. rewrite List.filter_app, length_app. simpl. lia. }
      split.
      { clear. induction evs0 as [|e r IH]; [reflexivity|].
        destruct e; simpl; now rewrite ?IH. }
      intros d Hin. apply in_app_or in Hin as [Hin|[Hin|[]]];
        [exact Hin | discriminate Hin].
    - destruct Hb as (Hw0 & Hn). exists evs. repeat split; auto. lia. }
  destruct Hw as (evs0 & Hw0 & Hle & Hs & Ht & Hin).
  destruct (waiting_sleeps lp delay evs0 Hw0) as (H1 & H2 & H3).
  split; [intros d Hd; now apply H3, Hin|].
  split; [lia|].
  rewrite Ht, H2. apply N.mul_le_mono_r. lia.
Qed.

(* =================================================================== *)
(** * The scenarios of the command-line tests                          *)
(* =================================================================== *)

(** X23.  The scenario of [test_lock_lifecycle]: release whatever lock
    there is, acquire with a session label, inspect, release.  When nobody
    else creates the lock file in between, the acquisition succeeds, the
    inspection reports the fingerprint of the label, and after the release
    the path is not locked: both assertions of the test hold. *)
Theorem lock_lifecycle path session w :
  digest_like sha256_hexdigest -> timestamp_like utc_isoformat ->
  pid_ok (self_pid w) -> no_racer w ->
  exists w1 w2 w3,
    force_release_lock path w = (Ok tt, w1)
    /\ try_acquire_lock path DEFAULT_RETRIES DEFAULT_DELAY session false w1 = (Ok true, w2)
    /\ LockInfo.session_hash (inspect_lock path w2) = session_to_hash session
    /\ release_lock path w2 = (Ok tt, w3)
    /\ is_locked path w3 = false.
Proof.
  intros Hsha Hiso Hpid Hr.
  set (lp := Paths.get_lock_path path).
  set (w1 := released lp w).
  assert (Hfree : fs w1 !! lp = None) by apply released_lock.
  assert (Hr1 : no_racer w1).
  { unfold no_racer, w1, released. now destruct (fs w !! lp). }
  assert (Hp1 : self_pid w1 = self_pid w).
  { unfold w1, released. now destruct (fs w !! lp). }
  destruct (Hiso (now w1)) as (Hts & Hts' & Hsp).
  eexists w1, _, _.
  split; [apply force_release_lock_run|].
  split; [exact (acquire_free path _ DEFAULT_DELAY session false w1 Hfree Hr1)|].
  split.
  { erewrite inspect_own_lock; [reflexivity | exact Hsha | exact Hts | exact Hts'
      | exact Hsp | now rewrite Hp1 | reflexivity]. }
  split; [apply force_release_lock_run|].
  unfold is_locked. apply exists_None, released_lock.
Qed.

(** X24.  The scenario of [test_force_lock]: with the lock held by a first
    session, a second acquisition with [force=True] and the default number
    of attempts removes the lock and takes it, without sleeping, and the
    inspection then reports the fingerprint of the second label. *)
Theorem forced_takeover path session1 session2 w :
  digest_like sha256_hexdigest -> timestamp_like utc_isoformat ->
  pid_ok (self_pid w) -> racers w = [] ->
  exists w1 w2 w3,
    force_release_lock path w = (Ok tt, w1)
    /\ try_acquire_lock path DEFAULT_RETRIES DEFAULT_DELAY session1 false w1 = (Ok true, w2)
    /\ try_acquire_lock path DEFAULT_RETRIES DEFAULT_DELAY session2 true w2 = (Ok true, w3)
    /\ LockInfo.session_hash (inspect_lock path w3) = session_to_hash session2
    /\ now w3 = now w.
Proof.
  intros Hsha Hiso Hpid Hr.
  set (lp := Paths.get_lock_path path).
  set (w1 := released lp w).
  assert (Hfree : fs w1 !! lp = None) by apply released_lock.
  assert (Hw1 : racers w1 = [] /\ self_pid w1 = self_pid w /\ now w1 = now w).
  { unfold w1, released. destruct (fs w !! lp); auto. }
  destruct Hw1 as (Hr1 & Hp1 & Hn1).
  assert (Hnr1 : no_racer w1) by (unfold no_racer; now rewrite Hr1).
  set (w2 := locked_by_self lp
               (lock_render (self_pid w1) (session_to_hash session1)
                  (utc_isoformat (now w1))) w1).
  assert (Hw2 : racers w2 = [] /\ self_pid w2 = self_pid w /\ now w2 = now w
                /\ is_Some (fs w2 !! lp)).
  { unfold w2, locked_by_self, raced_on. simpl. rewrite Hr1. simpl.
    rewrite lookup_insert_eq. eauto. }
  destruct Hw2 as (Hr2 & Hp2 & Hn2 & Hl2).
  assert (Hnr2 : no_racer w2) by (unfold no_racer; now rewrite Hr2).
  destruct (Hiso (now w2)) as (Hts & Hts' & Hsp).
  eexists w1, w2, _.
  split; [apply force_release_lock_run|].
  split; [exact (acquire_free path _ DEFAULT_DELAY session1 false w1 Hfree Hnr1)|].
  split.
  { exact (acquire_reclaims path _ DEFAULT_DELAY session2 true w2 Hl2
             (or_intror eq_refl) Hnr2). }
  split.
  { rewrite (inspect_own_lock path session2 (utc_isoformat (now w2)) (removed lp w2) _
               Hsha Hts Hts' Hsp); [reflexivity | | reflexivity].
    change (self_pid (removed lp w2)) with (self_pid w2). now rewrite Hp2. }
  simpl. rewrite raced_on_now. simpl. exact Hn2.
Qed.

End Safeatomic.

(* ===================================================================== *)
(** * Sample runs                                                        *)
(* ===================================================================== *)

(** The parameters, fixed for the runs below: a digest function with a
    constant value, a clock rendering that prints the number of
    milliseconds, and serializers on strings. *)
Definition sample_sha256 (bs : list byte) : string :=
  "9f86d081884c7d659a2feaa0c55ad015a3bf4f1b2b0b822cd15d6c15b0f00a08".

Definition sample_isoformat (t : Z) : string := "T" +:+ PyStr.str_of_int t.

Definition sample_dumps (s : string) : option string := Some s.

Definition sample_pickle (s : string) : option (list byte) :=
  Some (list_byte_of_string s).

Definition sample_unpickle (bs : list byte) : option string :=
  Some (string_of_list_byte bs).

Definition bytes_of (s : string) : list byte := list_byte_of_string s.

(** A pickler that has written nothing when it fails, and a ruamel dumper
    that writes the text in one piece. *)
Definition sample_partial (s : string) : list byte := [].

Definition sample_ruamel (s : string) : block := Block [s] None.

(** A target [p] holding ["old"], no lock; this process is 42, process 100
    is running. *)
Definition w_free : world :=
  World {[ "p" := File (bytes_of "old") 5 7 ]} 1000 [100] 42 [255%N] [] [] [].

(** The same, with the lock of [p] held by the running process 100. *)
Definition w_held : world :=
  World {[ "p" := File (bytes_of "old") 5 7;
           "p.lock" := File (bytes_of "100|abcd|T0") 900 0 ]}
        1000 [100] 42 [255%N] [] [] [].

(** A lock file whose owner field is no number. *)
Definition w_garbled : world :=
  World {[ "p.lock" := File (bytes_of "abc|deadbeef|2020") 0 0 ]}
        10 [] 1 [] [] [] [].

(** Two files, for the move. *)
Definition w_two : world :=
  World {[ "a" := File (bytes_of "new") 1 2; "b" := File (bytes_of "old") 3 4 ]}
        10 [] 1 [] [] [] [].

(** The text ["a\rb"]. *)
Definition text_cr : string := String "a" (String "013" (String "b" EmptyString)).

(** The text ["a\nb"]. *)
Definition text_lf : string := String "a" (String "010" (String "b" EmptyString)).

Definition sample_writer (simulate : bool) : AtomicWriter.t :=
  AtomicWriter.mk "p" (Paths.get_tmp_path 255 "p") 3 100 simulate None false Codec.utf8.

Definition sample_write (data : string) (simulate : bool) : M unit :=
  write_atomic sample_sha256 sample_isoformat "p" data 3 100 simulate None false
    Codec.utf8.

(** The block that writes ["par"] and then raises. *)
Definition failing_block : block := Block ["par"] (Some "boom").

(** ** C1 *)

Lemma failed_block_is_committed_witness :
  exists e w' bs evs,
    AtomicWriter_session sample_sha256 sample_isoformat (sample_writer false)
      failing_block w_free = (Raise e, w')
    /\ (e = BlockError "boom" \/ e = UnicodeEncodeError)
    /\ trace w' = trace (snd (AtomicWriter_enter sample_sha256 sample_isoformat
                               (sample_writer false) w_free)) ++ evs
    /\ In (Replaced (Paths.get_tmp_path 255 "p") "p") evs
    /\ data <$> fs w' !! "p" = Some bs
    /\ fs w' !! Paths.get_lock_path "p" = None
    /\ fs w' !! Paths.get_tmp_path 255 "p" = None
    /\ (forall bss,
          Forall2 (fun c x => Codec.enc Codec.utf8 c = Some x) (chunks failing_block) bss ->
          e = BlockError "boom" /\ bs = concat bss).
Proof.
  apply (failed_block_is_committed sample_sha256 sample_isoformat 255 "p" 3 100
           None false Codec.utf8 failing_block "boom" w_free
           (TextWriter (Paths.get_tmp_path 255 "p") Codec.utf8)).
  - vm_compute. reflexivity.
  - reflexivity.
Defined.

(** The failing input of C1: the target held ["old"]; the block wrote
    ["par"] and raised; the exception reaches the caller and the target now
    holds ["par"]. *)
Example failed_block_overwrites_target :
  data <$> fs w_free !! "p" = Some (bytes_of "old")
  /\ fst (AtomicWriter_session sample_sha256 sample_isoformat (sample_writer false)
            failing_block w_free) = Raise (BlockError "boom")
  /\ data <$> fs (snd (AtomicWriter_session sample_sha256 sample_isoformat
                         (sample_writer false) failing_block w_free)) !! "p"
     = Some (bytes_of "par").
Proof. vm_compute. repeat split. Qed.

(** ** C2 *)

(** C2 fails as stated.  Against the lock of a running process a simulated
    write succeeds where the real one gives up, and on a free target the
    simulated write leaves no trace where the real one creates and removes
    the lock file. *)
Example simulate_takes_no_lock :
  fst (sample_write "new" true w_held) = Ok tt
  /\ fst (sample_write "new" false w_held) = Raise (lock_unavailable "p")
  /\ trace (snd (sample_write "new" true w_free)) = []
  /\ trace (snd (sample_write "new" false w_free))
     = [Created "p.lock"; Opened ".__tmp-000000ff.p.tmp";
        StatCopied "p" ".__tmp-000000ff.p.tmp";
        Replaced ".__tmp-000000ff.p.tmp" "p"; Removed "p.lock"].
Proof. vm_compute. repeat split. Qed.

(** ** C3 *)

(** The failing input of C3.  Under the lock of a running process the core
    write gives up, and so do the JSON dump and the ruamel.yaml dump, but
    the pickle write returns normally and has replaced the target. *)
Example pickle_write_ignores_the_lock :
  LockInfo.alive (inspect_lock "p" w_held) = true
  /\ fst (write_atomic sample_sha256 sample_isoformat "p" "new" DEFAULT_RETRIES
            DEFAULT_DELAY false None false Codec.utf8 w_held)
     = Raise (lock_unavailable "p")
  /\ fst (atomic_json_dump sample_sha256 sample_isoformat string sample_dumps
            "p" "new" Codec.utf8 w_held)
     = Raise (lock_unavailable "p")
  /\ fst (atomic_yaml_dump_ruamel sample_sha256 sample_isoformat string sample_ruamel
            "p" "new" Codec.utf8 w_held)
     = Raise (lock_unavailable "p")
  /\ fst (atomic_pickle_write string sample_pickle sample_partial "p" "new" w_held)
     = Ok tt
  /\ data <$> fs (snd (atomic_pickle_write string sample_pickle sample_partial
                         "p" "new" w_held)) !! "p"
     = Some (bytes_of "new").
Proof. vm_compute. repeat split. Qed.

(** ** C4 *)

Lemma inspect_lock_unparseable_owner_witness :
  PyStr.int (owner_field "abc|deadbeef|2020") = None
  /\ LockInfo.pid (inspect_lock "p" w_garbled) = None
  /\ LockInfo.alive (inspect_lock "p" w_garbled) = false
  /\ LockInfo.corrupt (inspect_lock "p" w_garbled)
     = (PyStr.isdigit (owner_field "abc|deadbeef|2020")
        || (length (fields "abc|deadbeef|2020") <? 2)%nat).
Proof.
  assert (Hf : fs w_garbled !! Paths.get_lock_path "p"
               = Some (File (bytes_of "abc|deadbeef|2020") 0 0))
    by (vm_compute; reflexivity).
  assert (Hd : decode_text Codec.locale (data (File (bytes_of "abc|deadbeef|2020") 0 0))
               = Ok "abc|deadbeef|2020") by (vm_compute; reflexivity).
  assert (Hi : PyStr.int (owner_field "abc|deadbeef|2020") = None)
    by (vm_compute; reflexivity).
  destruct (inspect_lock_unparseable_owner "p" w_garbled _ _ Hf Hd Hi)
    as (_ & Hp & Ha & Hc & _).
  auto.
Defined.

(** C4 fails as stated: the owner id ["abc"] is no integer, yet the lock is
    reported as not corrupt, with the fingerprint read from the file. *)
Example inspect_lock_not_corrupt :
  PyStr.int (owner_field "abc|deadbeef|2020") = None
  /\ inspect_lock "p" w_garbled
     = LockInfo.mk "p.lock" true None false (Some "deadbeef") (Some "2020") false.
Proof. vm_compute. split; reflexivity. Qed.

(** ** C5 *)

Lemma open_without_lock_leaves_nothing_witness :
  try_acquire_lock sample_sha256 sample_isoformat "p" 3 100 None false w_held
  = (Ok false, snd (try_acquire_lock sample_sha256 sample_isoformat "p" 3 100
                      None false w_held))
  /\ AtomicWriter_enter sample_sha256 sample_isoformat (sample_writer false) w_held
     = (Raise (lock_unavailable "p"),
        snd (try_acquire_lock sample_sha256 sample_isoformat "p" 3 100
               None false w_held)).
Proof.
  assert (H : try_acquire_lock sample_sha256 sample_isoformat "p" 3 100 None false w_held
              = (Ok false, snd (try_acquire_lock sample_sha256 sample_isoformat
                                  "p" 3 100 None false w_held)))
    by (vm_compute; reflexivity).
  split; [exact H|].
  exact (proj1 (open_without_lock_leaves_nothing sample_sha256 sample_isoformat
                  255 "p" 3 100 None false Codec.utf8 w_held _ H)).
Defined.

(** ** C7 *)

Lemma write_then_read_round_trip_witness :
  fst (sample_write "new" false w_free) = Ok tt
  /\ read_atomic "p" 5 100 false Codec.utf8 (snd (sample_write "new" false w_free))
     = (Ok "new", snd (sample_write "new" false w_free)).
Proof.
  split; [vm_compute; reflexivity|].
  apply (write_then_read_round_trip sample_sha256 sample_isoformat "p" "new" 3 100
           None false Codec.utf8 5 100 false w_free).
  - apply utf8_lossless.
  - reflexivity.
  - lia.
  - vm_compute. reflexivity.
Defined.

(** C7 fails as stated: a carriage return is read back as a line feed. *)
Example carriage_return_is_not_read_back :
  fst (sample_write text_cr false w_free) = Ok tt
  /\ fst (read_atomic "p" 5 100 false Codec.utf8 (snd (sample_write text_cr false w_free)))
     = Ok text_lf.
Proof. vm_compute. split; reflexivity. Qed.

(** ** C8 *)

Lemma move_atomic_onto_existing_witness :
  _move_atomic "a" "b" false w_two = (Raise (FileExistsError "b"), w_two)
  /\ exists w',
      _move_atomic "a" "b" true w_two = (Ok tt, w')
      /\ fs w' !! "a" = None
      /\ fs w' !! "b" = Some (File (bytes_of "new") 1 4).
Proof.
  assert (Ha : fs w_two !! "a" = Some (File (bytes_of "new") 1 2))
    by (vm_compute; reflexivity).
  assert (Hb : fs w_two !! "b" = Some (File (bytes_of "old") 3 4))
    by (vm_compute; reflexivity).
  assert (Hne : "a" <> "b") by discriminate.
  destruct (move_atomic_onto_existing "a" "b" w_two _ _ Ha Hb Hne)
    as (H1 & w' & H2 & H3 & H4 & _).
  split; [exact H1|]. exists w'. auto.
Defined.

(** ** C10 *)

Lemma empty_session_is_no_session_witness :
  try_acquire_lock sample_sha256 sample_isoformat "p" 3 100 (Some EmptyString) false w_free
  = (Ok true, snd (try_acquire_lock sample_sha256 sample_isoformat "p" 3 100
                     (Some EmptyString) false w_free))
  /\ LockInfo.session_hash
       (inspect_lock "p" (snd (try_acquire_lock sample_sha256 sample_isoformat "p" 3 100
                                 (Some EmptyString) false w_free)))
     = None.
Proof.
  assert (H : try_acquire_lock sample_sha256 sample_isoformat "p" 3 100
                (Some EmptyString) false w_free
              = (Ok true, snd (try_acquire_lock sample_sha256 sample_isoformat "p" 3 100
                                 (Some EmptyString) false w_free)))
    by (vm_compute; reflexivity).
  split; [exact H|].
  exact (proj2 (proj2 (proj2 (empty_session_is_no_session sample_sha256
                                sample_isoformat "p" 3 100 false w_free _ H)))).
Defined.

(* ===================================================================== *)
(** * Sample runs for the further properties                             *)
(* ===================================================================== *)

(** The lock of [p] held by process 7, which is not running. *)
Definition w_dead : world :=
  World {[ "p" := File (bytes_of "old") 5 7;
           "p.lock" := File (bytes_of "7|abcd|T0") 900 0 ]}
        1000 [100] 42 [255%N] [] [] [].

(** A lock record that names process 0, with process 0 in the table. *)
Definition w_zero : world :=
  World {[ "p.lock" := File (bytes_of "0|abcd|T0") 900 0 ]}
        1000 [0; 100] 42 [255%N] [] [] [].

(** As [w_free], with this process in the process table. *)
Definition w_self : world :=
  World {[ "p" := File (bytes_of "old") 5 7 ]} 1000 [42; 100] 42 [255%N] [] [] [].

(** [w_self] after this process took the lock of [p]. *)
Definition w_mine : world :=
  snd (try_acquire_lock sample_sha256 sample_isoformat "p" 3 100 (Some "job") false w_self).

(** A pickler that fails after it has written ["ne"]. *)
Definition sample_fail (s : string) : option (list byte) := None.

Definition sample_written (s : string) : list byte := bytes_of "ne".


(** The block that writes ["ab"] and ["cd"] and returns. *)
Definition good_block : block := Block ["ab"; "cd"] None.

Lemma lock_record_round_trip_witness :
  lock_parse (lock_render 42 (Some "abcd1234") "T0")
  = Ok (LockDict (Some 42) (Some "abcd1234") (Some "T0")).
Proof.
  apply (lock_record_round_trip 42 (Some "abcd1234") "T0");
    vm_compute; reflexivity.
Defined.

Lemma inspect_after_acquire_witness :
  inspect_lock "p" w_mine
  = LockInfo.mk "p.lock" true (Some 42) true (Some "9f86d081") (Some "T1000") false.
Proof.
  apply (inspect_after_acquire sample_sha256 sample_isoformat "p" 3 100
           (Some "job") false w_self w_mine).
  - vm_compute. reflexivity.
  - split; vm_compute; congruence.
  - vm_compute. reflexivity.
  - vm_compute. reflexivity.
  - vm_compute. reflexivity.
  - vm_compute. reflexivity.
Defined.

Lemma held_lock_excludes_witness :
  exists w3,
    try_acquire_lock sample_sha256 sample_isoformat "p" 2 50 (Some "other") false w_mine
    = (Ok false, w3)
    /\ fs w3 = fs w_mine
    /\ now w3 = now w_mine + 100.
Proof.
  destruct (held_lock_excludes sample_sha256 sample_isoformat "p" 3 100
              (Some "job") false w_self w_mine 2 50 (Some "other") w_mine)
    as (w3 & H1 & H2 & H3 & _).
  - vm_compute. reflexivity.
  - split; vm_compute; reflexivity.
  - constructor.
  - vm_compute. reflexivity.
  - vm_compute. reflexivity.
  - vm_compute. reflexivity.
  - vm_compute. reflexivity.
  - reflexivity.
  - reflexivity.
  - exists w3. auto.
Defined.

Lemma pid_zero_is_never_alive_witness :
  LockInfo.pid (inspect_lock "p" w_zero) = Some 0
  /\ LockInfo.alive (inspect_lock "p" w_zero) = false
  /\ LockInfo.corrupt (inspect_lock "p" w_zero) = false.
Proof.
  destruct (pid_zero_is_never_alive "p" w_zero
              (File (bytes_of "0|abcd|T0") 900 0) (Some "abcd") "T0")
    as (H1 & H2 & H3 & _); try (vm_compute; reflexivity).
  auto.
Defined.

Lemma contended_acquire_gives_up_witness :
  exists w',
    try_acquire_lock sample_sha256 sample_isoformat "p" 3 100 None false w_held
    = (Ok false, w')
    /\ fs w' = fs w_held
    /\ now w' = 1300.
Proof.
  destruct (contended_acquire_gives_up sample_sha256 sample_isoformat "p" 3 100
              None w_held)
    as (w' & H1 & H2 & H3 & _).
  - exists (File (bytes_of "100|abcd|T0") 900 0). vm_compute. reflexivity.
  - vm_compute. reflexivity.
  - exists w'. auto.
Defined.

Lemma reclaim_takes_two_attempts_witness :
  try_acquire_lock sample_sha256 sample_isoformat "p" 1 100 None false w_dead
  = (Ok false, removed "p.lock" w_dead)
  /\ fst (try_acquire_lock sample_sha256 sample_isoformat "p" 2 100 None false w_dead)
     = Ok true.
Proof.
  destruct (reclaim_takes_two_attempts sample_sha256 sample_isoformat "p" 100
              None false w_dead) as (H1 & H2).
  - exists (File (bytes_of "7|abcd|T0") 900 0). vm_compute. reflexivity.
  - left. vm_compute. reflexivity.
  - reflexivity.
  - split; [exact H1|]. destruct (H2 O) as (H & _). now rewrite H.
Defined.

Lemma exit_always_releases_witness :
  exists r w',
    AtomicWriter_exit (sample_writer false) w_held = (r, w')
    /\ fs w' !! "p.lock" = None.
Proof.
  destruct (exit_always_releases (sample_writer false) w_held)
    as (r & w' & H1 & H2 & _).
  - reflexivity.
  - vm_compute. discriminate.
  - exists r, w'. auto.
Defined.

Lemma read_atomic_missing_file_witness :
  exists w',
    read_atomic "q" 3 100 false Codec.utf8 w_free = (Raise (read_failed "q"), w')
    /\ fs w' = fs w_free
    /\ now w' = 1300.
Proof.
  destruct (read_atomic_missing_file "q" 3 100 false Codec.utf8 w_free)
    as (w' & H1 & H2 & H3 & _).
  - vm_compute. reflexivity.
  - exists w'. auto.
Defined.

Lemma read_atomic_and_the_lock_witness :
  read_atomic "p" 1 100 false Codec.utf8 w_held = (Ok "old", w_held)
  /\ exists w', read_atomic "p" 0 100 true Codec.utf8 w_held
                = (Raise (read_failed "p"), w').
Proof.
  destruct (read_atomic_and_the_lock "p" 0 100 Codec.utf8 w_held
              (File (bytes_of "old") 5 7) "old")
    as (H1 & w' & H2 & _).
  - vm_compute. reflexivity.
  - vm_compute. reflexivity.
  - exists (File (bytes_of "100|abcd|T0") 900 0). vm_compute. reflexivity.
  - split; [exact H1 | eauto].
Defined.

Lemma move_atomic_fresh_destination_witness :
  exists w', _move_atomic "a" "c" false w_two = (Ok tt, w')
    /\ trace w' = [Replaced "a" "c"].
Proof.
  assert (Hc : fs w_two !! "c" = None) by (vm_compute; reflexivity).
  assert (Ha : fs w_two !! "a" = Some (File (bytes_of "new") 1 2))
    by (vm_compute; reflexivity).
  destruct (move_atomic_fresh_destination "a" "c" false w_two Hc) as [H _].
  rewrite Ha in H. destruct H as (w' & H1 & _ & H3 & _).
  exists w'. auto.
Defined.

Lemma write_atomic_commits_witness :
  exists rand bs,
    Codec.enc Codec.utf8 "new" = Some bs
    /\ data <$> fs (snd (sample_write "new" false w_free)) !! "p" = Some bs
    /\ fs (snd (sample_write "new" false w_free)) !! "p.lock" = None
    /\ fs (snd (sample_write "new" false w_free)) !! Paths.get_tmp_path rand "p" = None.
Proof.
  destruct (write_atomic_commits sample_sha256 sample_isoformat "p" "new" 3 100
              None false Codec.utf8 w_free (snd (sample_write "new" false w_free)))
    as (rand & bs & H1 & H2 & H3 & H4 & _).
  - vm_compute. reflexivity.
  - exists rand, bs. auto.
Defined.

Lemma write_atomic_succeeds_witness :
  exists w1,
    write_atomic sample_sha256 sample_isoformat "p" "new" 1 100 false None false
      Codec.utf8 w_free = (Ok tt, w1)
    /\ data <$> fs w1 !! "p" = Some (bytes_of "new").
Proof.
  destruct (write_atomic_succeeds sample_sha256 sample_isoformat "p" "new" 0 100
              None false Codec.utf8 w_free (bytes_of "new"))
    as (w1 & H1 & H2 & _).
  - vm_compute. reflexivity.
  - reflexivity.
  - vm_compute. reflexivity.
  - exists w1. auto.
Defined.

Lemma pickle_failure_leaves_temp_file_witness :
  exists rand w',
    atomic_pickle_write string sample_fail sample_written "p" "new" w_free
    = (Raise SerializerError, w')
    /\ data <$> fs w' !! Paths.get_tmp_path rand "p" = Some (bytes_of "ne")
    /\ fs w' !! "p" = fs w_free !! "p".
Proof.
  destruct (pickle_failure_leaves_temp_file string sample_fail sample_written
              "p" "new" w_free)
    as (rand & w' & H1 & (ft & H2 & H2') & H3 & _).
  - reflexivity.
  - exists rand, w'. split; [exact H1|]. split; [|exact H3].
    rewrite H2. simpl. now rewrite H2'.
Defined.

Lemma pickle_round_trip_witness :
  exists w1,
    atomic_pickle_write string sample_pickle sample_partial "p" "new" w_held
    = (Ok tt, w1)
    /\ atomic_pickle_read string sample_unpickle "p" w1 = (Ok "new", w1).
Proof.
  destruct (pickle_round_trip string sample_pickle sample_unpickle sample_partial
              "p" "new" (bytes_of "new") w_held) as (w1 & H1 & H2).
  - reflexivity.
  - exists w1. split; [exact H1|]. rewrite H2. reflexivity.
Defined.

Lemma json_yaml_round_trip_witness :
  atomic_json_load string sample_dumps "p" Codec.utf8
    (snd (atomic_json_dump sample_sha256 sample_isoformat string sample_dumps
            "p" "new" Codec.utf8 w_free))
  = (Ok "new",
     snd (atomic_json_dump sample_sha256 sample_isoformat string sample_dumps
            "p" "new" Codec.utf8 w_free)).
Proof.
  apply (proj1 (json_yaml_round_trip sample_sha256 sample_isoformat string
                  sample_dumps sample_dumps sample_dumps sample_dumps
                  "p" "new" Codec.utf8 "new" w_free _ utf8_lossless eq_refl)).
  - reflexivity.
  - vm_compute. reflexivity.
Defined.

Lemma session_commits_block_witness :
  exists w',
    AtomicWriter_session sample_sha256 sample_isoformat (sample_writer false)
      good_block w_free = (Ok tt, w')
    /\ data <$> fs w' !! "p" = Some (bytes_of "abcd").
Proof.
  destruct (session_commits_block sample_sha256 sample_isoformat 255 "p" 3 100
              None false Codec.utf8 good_block (bytes_of "abcd") w_free
              (TextWriter (Paths.get_tmp_path 255 "p") Codec.utf8)
              (snd (AtomicWriter_enter sample_sha256 sample_isoformat
                      (sample_writer false) w_free)))
    as (w' & H1 & H2 & _).
  - apply utf8_stateless.
  - vm_compute. reflexivity.
  - reflexivity.
  - reflexivity.
  - exists w'. auto.
Defined.


(** A clock rendering with a constant value. *)
Definition sample_timestamp (t : Z) : string := "2024-01-01T00:00:00+00:00".

Lemma lock_lifecycle_witness :
  exists w1 w2 w3,
    force_release_lock "p" w_held = (Ok tt, w1)
    /\ try_acquire_lock sample_sha256 sample_timestamp "p" DEFAULT_RETRIES DEFAULT_DELAY
         (Some "demo-session") false w1 = (Ok true, w2)
    /\ LockInfo.session_hash (inspect_lock "p" w2)
       = session_to_hash sample_sha256 (Some "demo-session")
    /\ release_lock "p" w2 = (Ok tt, w3)
    /\ is_locked "p" w3 = false.
Proof.
  apply (lock_lifecycle sample_sha256 sample_timestamp "p" (Some "demo-session") w_held).
  - intros bs. vm_compute. repeat split; reflexivity.
  - intros t. vm_compute. repeat split; reflexivity.
  - split; vm_compute; congruence.
  - reflexivity.
Defined.

Lemma forced_takeover_witness :
  exists w1 w2 w3,
    force_release_lock "p" w_held = (Ok tt, w1)
    /\ try_acquire_lock sample_sha256 sample_timestamp "p" DEFAULT_RETRIES DEFAULT_DELAY
         (Some "test1") false w1 = (Ok true, w2)
    /\ try_acquire_lock sample_sha256 sample_timestamp "p" DEFAULT_RETRIES DEFAULT_DELAY
         (Some "test2") true w2 = (Ok true, w3)
    /\ LockInfo.session_hash (inspect_lock "p" w3)
       = session_to_hash sample_sha256 (Some "test2")
    /\ now w3 = now w_held.
Proof.
  apply (forced_takeover sample_sha256 sample_timestamp "p" (Some "test1")
           (Some "test2") w_held).
  - intros bs. vm_compute. repeat split; reflexivity.
  - intros t. vm_compute. repeat split; reflexivity.
  - split; vm_compute; congruence.
  - reflexivity.
Defined.
